(** * LiveNote: the session collaboration engine, embedded in Rocq

    A shallow embedding of [src/lib/note-service.ts] (plain-text/Tiptap
    conversion, participant records, the edit-permission request flow),
    of the [useNoteLock] hook and of the subscription handler of
    [useRealtimeNote], together with the properties the specification
    states about them.

    Conventions of the embedding.
    - A JavaScript string whose characters matter (document text) is the
      list of its UTF-16 code units; identifiers and display names, which
      the code only compares, are [string]s.
    - Instants are integers, milliseconds since the epoch: what
      [Date.now()] and [new Date(iso).getTime()] return.  The clock is an
      explicit argument of every operation that reads it.
    - The two Supabase tables are lists of rows; [.single()] succeeds on
      exactly one row; values the database draws at random (row ids) are
      explicit arguments; a thrown [Error] is a value of [Error]. *)

From Stdlib Require Import ZArith NArith QArith Qround List String Bool Lia.
From Stdlib Require Import Sorted Permutation.
Import ListNotations.

Set Implicit Arguments.

(* ===================================================================== *)
(** ** Plain text and Tiptap JSON *)
(* ===================================================================== *)

Module Tiptap.

Local Open Scope N_scope.

(** A UTF-16 code unit and a JavaScript string. *)
Definition char16 := N.
Definition jsstring := list char16.

(** The code units of an ASCII literal. *)
Definition js (s : string) : jsstring :=
  map Ascii.N_of_ascii (list_ascii_of_string s).

Definition LF : char16 := 10.

Definition jsstring_eqb (a b : jsstring) : bool :=
  if list_eq_dec N.eq_dec a b then true else false.

(** ECMAScript [WhiteSpace] and [LineTerminator]: what
    [String.prototype.trim] strips. *)
Definition isWhiteSpace (c : char16) : bool :=
  existsb (N.eqb c)
    [9; 10; 11; 12; 13; 32; 160; 5760; 8232; 8233; 8239; 8287; 12288; 65279]
  || ((8192 <=? c) && (c <=? 8202)).

Fixpoint trimStart (s : jsstring) : jsstring :=
  match s with
  | [] => []
  | c :: s' => if isWhiteSpace c then trimStart s' else s
  end.

Definition trimEnd (s : jsstring) : jsstring := rev (trimStart (rev s)).

Definition trim (s : jsstring) : jsstring := trimEnd (trimStart s).

(** [s.split(sep)] for a separator of one code unit. *)
Fixpoint split (sep : char16) (s : jsstring) : list jsstring :=
  match s with
  | [] => [[]]
  | c :: s' =>
      if c =? sep then [] :: split sep s'
      else match split sep s' with
           | [] => [[c]]
           | l :: ls => (c :: l) :: ls
           end
  end.

(** [parts.join(sep)]. *)
Fixpoint join (sep : jsstring) (parts : list jsstring) : jsstring :=
  match parts with
  | [] => []
  | [p] => p
  | p :: ps => p ++ sep ++ join sep ps
  end.

(** [TiptapNode] of [types/note.ts]; [attrs] and [marks], which the two
    conversions never read or write, are left out. *)
#[local] Unset Elimination Schemes.
Inductive TiptapNode : Type :=
  mkNode { type : jsstring;
           content : option (list TiptapNode);
           text : option jsstring }.
#[local] Set Elimination Schemes.

(** [TiptapContent]: [{ type: 'doc', content }]. *)
Record TiptapContent : Type := mkDoc { doc_content : list TiptapNode }.

Definition emptyDoc : TiptapContent := mkDoc [].

(** JavaScript truthiness of a string. *)
Definition truthy (s : jsstring) : bool :=
  match s with [] => false | _ => true end.

Definition textNode (line : jsstring) : TiptapNode :=
  mkNode (js "text") None (Some line).

Definition paragraph (line : jsstring) : TiptapNode :=
  mkNode (js "paragraph")
         (Some (if truthy line then [textNode line] else []))
         None.

Definition textToTiptapJson (text : jsstring) : TiptapContent :=
  if negb (truthy text) || jsstring_eqb (trim text) [] then emptyDoc
  else mkDoc (map paragraph (split LF text)).

(** [child.text || ''] *)
Definition childText (child : TiptapNode) : jsstring :=
  match text child with
  | Some t => if truthy t then t else []
  | None => []
  end.

Definition nodeText (node : TiptapNode) : jsstring :=
  match content node with
  | Some children =>
      if jsstring_eqb (type node) (js "paragraph")
      then join [] (map childText children)
      else []
  | None => []
  end.

Definition tiptapJsonToText (json : option TiptapContent) : jsstring :=
  match json with
  | None => []
  | Some j => join [LF] (map nodeText (doc_content j))
  end.

End Tiptap.

(* ===================================================================== *)
(** ** The store: the [notes] and [note_users] tables *)
(* ===================================================================== *)

Module Store.

Local Open Scope string_scope.
Local Open Scope Z_scope.

(** [UserRole] and [PermissionStatus] of [types/note.ts]. *)
Inductive UserRole : Set := host | guest.
Inductive PermissionStatus : Set := none | requested | granted | denied.

Definition role_eqb (a b : UserRole) : bool :=
  match a, b with
  | host, host | guest, guest => true
  | _, _ => false
  end.

Definition status_eqb (a b : PermissionStatus) : bool :=
  match a, b with
  | none, none | requested, requested
  | granted, granted | denied, denied => true
  | _, _ => false
  end.

(** A row of [notes].  [nid] is the column [id]. *)
Record Note : Type := mkNote {
  nid : string;
  note_code : string;
  title : string;
  content : Tiptap.jsstring;
  content_json : option Tiptap.TiptapContent;
  host_password : string;
  guest_password : string;
  is_locked : bool;
  locked_by : option string;
  created_at : Z;
  last_modified : Z
}.

(** A row of [note_users]. *)
Record NoteUser : Type := mkNoteUser {
  id : string;
  note_id : string;
  user_id : string;
  username : string;
  role : UserRole;
  joined_at : Z;
  can_edit : bool;
  permission_status : PermissionStatus;
  permission_requested_at : option Z
}.

Record Db : Type := mkDb {
  notes : list Note;
  note_users : list NoteUser
}.

Definition emptyDb : Db := mkDb [] [].

Definition set_notes (db : Db) (ns : list Note) : Db :=
  mkDb ns (note_users db).

Definition set_note_users (db : Db) (us : list NoteUser) : Db :=
  mkDb (notes db) us.

(** What PostgREST and Postgres report. *)
Inductive PgError : Set :=
| PGRST116                (* the result is not exactly one row *)
| unique_violation        (* 23505 *)
| foreign_key_violation   (* 23503 *)
| other_failure.          (* anything else, e.g. the transport *)

Definition is_unique_violation (e : PgError) : bool :=
  match e with unique_violation => true | _ => false end.

(** [.single()]: exactly one row, or no data. *)
Definition single {A : Type} (rows : list A) : option A :=
  match rows with
  | [r] => Some r
  | _ => None
  end.

(** [.eq('note_id', noteId).eq('user_id', userId)] *)
Definition key_is (noteId userId : string) (u : NoteUser) : bool :=
  (note_id u =? noteId)%string && (user_id u =? userId)%string.

(** [.from('note_users').select('*').eq(..).eq(..).single()] *)
Definition select_user (db : Db) (noteId userId : string) : option NoteUser :=
  single (filter (key_is noteId userId) (note_users db)).

(** The same query with [.eq('role', 'host')] added. *)
Definition select_host (db : Db) (noteId userId : string) : option NoteUser :=
  single (filter (fun u => key_is noteId userId u && role_eqb (role u) host)
                 (note_users db)).

(** [UPDATE .. SET patch WHERE p]. *)
Definition update_where {A : Type} (p : A -> bool) (patch : A -> A)
           (rows : list A) : list A :=
  map (fun r => if p r then patch r else r) rows.

(** [.update(patch).eq(..).select().single()]: the updated rows are
    returned; unless there is exactly one the request is an error and
    the statement is rolled back. *)
Definition update_user_single (p : NoteUser -> bool)
           (patch : NoteUser -> NoteUser) (db : Db) : PgError + NoteUser * Db :=
  match single (map patch (filter p (note_users db))) with
  | Some data => inr (data, set_note_users db (update_where p patch (note_users db)))
  | None => inl PGRST116
  end.

Definition update_note_single (p : Note -> bool)
           (patch : Note -> Note) (db : Db) : PgError + Note * Db :=
  match single (map patch (filter p (notes db))) with
  | Some data => inr (data, set_notes db (update_where p patch (notes db)))
  | None => inl PGRST116
  end.

(** [INSERT INTO notes]: [id] is the primary key, [note_code] is UNIQUE. *)
Definition insert_note (n : Note) (db : Db) : PgError + Note * Db :=
  if existsb (fun m => (nid m =? nid n)%string
                       || (note_code m =? note_code n)%string) (notes db)
  then inl unique_violation
  else inr (n, set_notes db (notes db ++ [n])).

(** [INSERT INTO note_users]: [id] is the primary key, [note_id]
    references [notes(id)]. *)
Definition insert_user (u : NoteUser) (db : Db) : PgError + NoteUser * Db :=
  if existsb (fun v => (id v =? id u)%string) (note_users db)
  then inl unique_violation
  else if negb (existsb (fun n => (nid n =? note_id u)%string) (notes db))
  then inl foreign_key_violation
  else inr (u, set_note_users db (note_users db ++ [u])).

End Store.

(* ===================================================================== *)
(** ** [lib/note-service.ts]: participants and edit permission *)
(* ===================================================================== *)

Module NoteService.

Import Store.
Local Open Scope string_scope.
Local Open Scope Z_scope.

(** The errors the service throws, one constructor per message.  In the
    words of the specification: [UserNotFound] and [TargetNotFound] are
    its NotFound, [HostOnly] and [HostAlreadyEditor] its Forbidden,
    [NotRequested] its InvalidState, the [Invalid..] ones its
    ValidationError. *)
Inductive Error : Type :=
| InvalidNoteId            (* 유효하지 않은 노트 ID입니다. *)
| InvalidUserId            (* 유효하지 않은 사용자 ID입니다. *)
| InvalidTargetUserId      (* 유효하지 않은 대상 사용자 ID입니다. *)
| InvalidRequesterId       (* 유효하지 않은 요청자 ID입니다. *)
| InvalidHostId            (* 유효하지 않은 호스트 ID입니다. *)
| HostOnly                 (* 호스트만 ... 수 있습니다. *)
| TargetNotFound           (* 대상 사용자를 찾을 수 없습니다. *)
| HostPermissionFixed      (* 호스트의 권한은 변경할 수 없습니다. *)
| UserNotFound             (* 사용자를 찾을 수 없습니다. *)
| HostAlreadyEditor        (* 호스트는 이미 편집 권한이 있습니다. *)
| AlreadyGranted           (* 이미 편집 권한이 있습니다. *)
| Cooldown (remainingSeconds : Z)   (* N초 후 다시 시도해주세요. *)
| NotRequested             (* 대상 사용자가 권한 요청 상태가 아닙니다. *)
| MaxAttemptsExceeded      (* 최대 시도 횟수 초과 *)
| DbError (e : PgError).   (* ...실패: error.message *)

Inductive Result (A : Type) : Type :=
| Ok (a : A)
| Err (e : Error).
Arguments Err {A} e.

(** The outcome of a write: the thrown error wraps the store's. *)
Definition written {A : Type} (r : PgError + A) : Result A :=
  match r with
  | inr a => Ok a
  | inl e => Err (DbError e)
  end.

(** [!s || s === ''] *)
Definition falsy (s : string) : bool := (s =? "")%string.

(** *** [createNote] *)

Definition hostUsername : string := "호스트".

(** The loop of [createNote] with [fuel = maxAttempts - attempts] turns
    left.  [codes k] is the value of the k-th call of
    [generateNoteCode()], [noteIds k] the [id] the database draws for the
    row of the k-th insertion, [participantId] is
    [crypto.randomUUID()] and [rowId] the [id] drawn for the host's row.
    The host's row names [note_id], [user_id], [username], [role] and
    [can_edit]; the other columns take the defaults of the migrations:
    [joined_at DEFAULT now()], [permission_status DEFAULT 'none'],
    [permission_requested_at] null. *)
Fixpoint createNote_loop (fuel attempts : nat)
         (codes noteIds : nat -> string) (participantId rowId : string)
         (now : Z) (db : Db) (title hostPassword guestPassword : string)
  : Result (Note * string * Db) :=
  match fuel with
  | O => Err MaxAttemptsExceeded
  | S fuel' =>
      match insert_note
              (mkNote (noteIds attempts) (codes attempts) title [] None
                      hostPassword guestPassword false None now now) db with
      | inr (data, db1) =>
          let hostRow :=
            mkNoteUser rowId (nid data) participantId hostUsername host
                       now true none None in
          let db2 := match insert_user hostRow db1 with
                     | inr (_, db2) => db2
                     | inl _ => db1        (* logged; the note stays *)
                     end in
          Ok (data, participantId, db2)
      | inl e =>
          if is_unique_violation e
          then createNote_loop fuel' (S attempts) codes noteIds
                               participantId rowId now db
                               title hostPassword guestPassword
          else Err (DbError e)
      end
  end.

Definition maxAttempts : nat := 5.

Definition createNote := createNote_loop maxAttempts 0.

(** *** [setNoteLock] *)

Definition setNoteLock (now : Z) (db : Db) (noteId : string)
           (isLocked : bool) (lockedBy : option string) : Result (Note * Db) :=
  if falsy noteId then Err InvalidNoteId
  else written
         (update_note_single
            (fun n => (nid n =? noteId)%string)
            (fun n => mkNote (nid n) (note_code n) (title n) (content n)
                             (content_json n) (host_password n)
                             (guest_password n) isLocked lockedBy
                             (created_at n) now)
            db).

(** *** [joinNote] *)

Definition rejoin (name : string) (r : UserRole) (now : Z) (u : NoteUser)
  : NoteUser :=
  mkNoteUser (id u) (note_id u) (user_id u) name r now
             (can_edit u) (permission_status u) (permission_requested_at u).

Definition newParticipant (rowId noteId userId name : string)
           (r : UserRole) (now : Z) : NoteUser :=
  mkNoteUser rowId noteId userId name r now
             (role_eqb r host)
             (if role_eqb r host then granted else none)
             None.

(** [rowId] is the [id] the database draws when a row is inserted. *)
Definition joinNote (rowId : string) (now : Z) (db : Db)
           (noteId userId name : string) (r : UserRole)
  : Result (NoteUser * Db) :=
  if falsy noteId then Err InvalidNoteId
  else if falsy userId then Err InvalidUserId
  else match select_user db noteId userId with
       | Some existing =>
           written (update_user_single
                      (fun u => (id u =? id existing)%string)
                      (rejoin name r now) db)
       | None =>
           written (insert_user
                      (newParticipant rowId noteId userId name r now) db)
       end.

(** *** [leaveNote] *)

Definition leaveNote (db : Db) (noteId userId : string) : Db :=
  if falsy noteId || falsy userId then db
  else set_note_users db
         (filter (fun u => negb (key_is noteId userId u)) (note_users db)).

(** *** [updateUserEditPermission] *)

Definition set_can_edit (canEdit : bool) (u : NoteUser) : NoteUser :=
  mkNoteUser (id u) (note_id u) (user_id u) (username u) (role u)
             (joined_at u) canEdit (permission_status u)
             (permission_requested_at u).

Definition updateUserEditPermission (db : Db)
           (noteId targetUserId : string) (canEdit : bool)
           (requesterId : string) : Result (NoteUser * Db) :=
  if falsy noteId then Err InvalidNoteId
  else if falsy targetUserId then Err InvalidTargetUserId
  else if falsy requesterId then Err InvalidRequesterId
  else match select_host db noteId requesterId with
       | None => Err HostOnly
       | Some _ =>
           match select_user db noteId targetUserId with
           | None => Err TargetNotFound
           | Some targetData =>
               if role_eqb (role targetData) host then Err HostPermissionFixed
               else written (update_user_single
                               (key_is noteId targetUserId)
                               (set_can_edit canEdit) db)
           end
       end.

(** *** [requestEditPermission] *)

Definition COOLDOWN_SECONDS : Q := inject_Z 30.

(** [(now - lastRequestTime) / 1000].  Both instants are whole
    milliseconds, so the double the code computes and this rational
    compare alike with 30 and have the same ceiling of the difference. *)
Definition elapsedSeconds (now lastRequestTime : Z) : Q :=
  (inject_Z (now - lastRequestTime) / inject_Z 1000)%Q.

Definition Qltb (a b : Q) : bool := negb (Qle_bool b a).

(** [Math.ceil(COOLDOWN_SECONDS - elapsedSeconds)] *)
Definition remainingSeconds (elapsed : Q) : Z :=
  Qceiling (COOLDOWN_SECONDS - elapsed)%Q.

(** Step 4 of [requestEditPermission]: the remaining seconds when the
    request is thrown back. *)
Definition cooldownCheck (now : Z) (userData : NoteUser) : option Z :=
  match permission_requested_at userData with
  | Some lastRequestTime =>
      let elapsed := elapsedSeconds now lastRequestTime in
      if Qltb elapsed COOLDOWN_SECONDS
         && status_eqb (permission_status userData) requested
      then Some (remainingSeconds elapsed)
      else if Qltb elapsed COOLDOWN_SECONDS
              && status_eqb (permission_status userData) denied
      then Some (remainingSeconds elapsed)
      else None
  | None => None
  end.

Definition set_requested (now : Z) (u : NoteUser) : NoteUser :=
  mkNoteUser (id u) (note_id u) (user_id u) (username u) (role u)
             (joined_at u) (can_edit u) requested (Some now).

Definition requestEditPermission (now : Z) (db : Db)
           (noteId userId : string) : Result (NoteUser * Db) :=
  if falsy noteId then Err InvalidNoteId
  else if falsy userId then Err InvalidUserId
  else match select_user db noteId userId with
       | None => Err UserNotFound
       | Some userData =>
           if role_eqb (role userData) host then Err HostAlreadyEditor
           else if can_edit userData then Err AlreadyGranted
           else match cooldownCheck now userData with
                | Some remaining => Err (Cooldown remaining)
                | None =>
                    written (update_user_single (key_is noteId userId)
                                                (set_requested now) db)
                end
       end.

(** *** [respondToEditRequest] *)

Definition approve (u : NoteUser) : NoteUser :=
  mkNoteUser (id u) (note_id u) (user_id u) (username u) (role u)
             (joined_at u) true granted (permission_requested_at u).

Definition deny (u : NoteUser) : NoteUser :=
  mkNoteUser (id u) (note_id u) (user_id u) (username u) (role u)
             (joined_at u) (can_edit u) denied (permission_requested_at u).

Definition respondToEditRequest (db : Db) (noteId targetUserId : string)
           (approved : bool) (hostUserId : string) : Result (NoteUser * Db) :=
  if falsy noteId then Err InvalidNoteId
  else if falsy targetUserId then Err InvalidTargetUserId
  else if falsy hostUserId then Err InvalidHostId
  else match select_host db noteId hostUserId with
       | None => Err HostOnly
       | Some _ =>
           match select_user db noteId targetUserId with
           | None => Err TargetNotFound
           | Some targetData =>
               if negb (status_eqb (permission_status targetData) requested)
               then Err NotRequested
               else written (update_user_single
                               (key_is noteId targetUserId)
                               (if approved then approve else deny) db)
           end
       end.

(** *** [cleanupExpiredRequests] *)

Definition EXPIRY_HOURS : Z := 24.

Definition expired (noteId : string) (expiryTime : Z) (u : NoteUser) : bool :=
  (note_id u =? noteId)%string
  && (status_eqb (permission_status u) requested
      || status_eqb (permission_status u) denied)
  && match permission_requested_at u with
     | Some t => t <? expiryTime
     | None => false            (* NULL < x is not true *)
     end.

Definition reset_request (u : NoteUser) : NoteUser :=
  mkNoteUser (id u) (note_id u) (user_id u) (username u) (role u)
             (joined_at u) (can_edit u) none None.

(** [failure] is the [error] the store answers the UPDATE with, if any:
    the statement then changes nothing.  The second component of the
    result is what went to [console.error]. *)
Definition cleanupExpiredRequests (failure : option PgError) (now : Z)
           (db : Db) (noteId : string) : Result (list PgError * Db) :=
  if falsy noteId then Ok ([], db)
  else
    let expiryTime := now - EXPIRY_HOURS * 60 * 60 * 1000 in
    match failure with
    | Some e => Ok ([e], db)
    | None =>
        Ok ([], set_note_users db
                  (update_where (expired noteId expiryTime) reset_request
                                (note_users db)))
    end.

End NoteService.

(* ===================================================================== *)
(** ** [hooks/useNoteLock.ts]: the lock as one client sees and sets it *)
(* ===================================================================== *)

Module NoteLock.

Import Store NoteService.

Inductive LockError : Type :=
| GuestCannotLock          (* 게스트는 잠금을 설정할 수 없습니다 *)
| GuestCannotUnlock        (* 게스트는 잠금을 해제할 수 없습니다 *)
| LockedByAnother          (* 다른 사용자가 설정한 잠금은 해제할 수 없습니다 *)
| ServiceError (e : Error).

(** The hook's state: its view of the lock, kept current by the
    subscription to [notes], and the last error. *)
Record LockState : Type := mkLockState {
  isLocked : bool;
  lockedBy : option string;
  error : option LockError
}.

(** [lockedBy === userId] *)
Definition holder_is (holder : option string) (userId : string) : bool :=
  match holder with
  | Some h => (h =? userId)%string
  | None => false
  end.

(** [requestLock] of the hook mounted with [noteId], [userId], [r]:
    the boolean it resolves to, the next state, the store. *)
Definition requestLock (noteId userId : string) (r : UserRole)
           (now : Z) (st : LockState) (db : Db) : bool * LockState * Db :=
  if negb (role_eqb r host)
  then (false, mkLockState (isLocked st) (lockedBy st) (Some GuestCannotLock), db)
  else if isLocked st && holder_is (lockedBy st) userId
  then (true, st, db)
  else match setNoteLock now db noteId true (Some userId) with
       | Ok (_, db') => (true, mkLockState true (Some userId) None, db')
       | Err e =>
           (false, mkLockState (isLocked st) (lockedBy st)
                               (Some (ServiceError e)), db)
       end.

(** [releaseLock]: the error it rejects with, if any, the next state,
    the store. *)
Definition releaseLock (noteId userId : string) (r : UserRole)
           (now : Z) (st : LockState) (db : Db)
  : option LockError * LockState * Db :=
  if negb (role_eqb r host)
  then (None, mkLockState (isLocked st) (lockedBy st) (Some GuestCannotUnlock), db)
  else if negb (holder_is (lockedBy st) userId)
          && match lockedBy st with Some _ => true | None => false end
  then (None, mkLockState (isLocked st) (lockedBy st) (Some LockedByAnother), db)
  else match setNoteLock now db noteId false None with
       | Ok (_, db') => (None, mkLockState false None None, db')
       | Err e =>
           (Some (ServiceError e),
            mkLockState (isLocked st) (lockedBy st) (Some (ServiceError e)), db)
       end.

End NoteLock.

(* ===================================================================== *)
(** ** [hooks/useRealtimeNote.ts]: push subscription and polling *)
(* ===================================================================== *)

Module RealtimeNote.

Import Store.
Local Open Scope Z_scope.

Definition DEBOUNCE_DELAY : Z := 500.
Definition POLLING_INTERVAL : Z := 3000.
Definition MAX_RECONNECT_ATTEMPTS : nat := 3.

(** The statuses the subscribe callback is called with. *)
Inductive SubscribeStatus : Set :=
| SUBSCRIBED | CHANNEL_ERROR | TIMED_OUT | CLOSED.

(** A [setInterval] timer: when it was set and its period. *)
Record Timer : Type := mkTimer { started : Z; interval : Z }.

(** The instant of the k-th firing (k = 0 is the first). *)
Definition firing (t : Timer) (k : nat) : Z :=
  started t + interval t * (Z.of_nat k + 1).

(** How many times [t] has fired up to and including [instant]. *)
Definition firedBy (t : Timer) (instant : Z) : nat :=
  Z.to_nat ((instant - started t) / interval t).

(** The instants after [from] and up to [to] at which [t] fires, first
    to last. *)
Definition firingsBetween (t : Timer) (from to : Z) : list Z :=
  map (firing t) (seq (firedBy t from) (firedBy t to - firedBy t from)).

Section Agent.

(** The content is a blob the hook only serialises and compares. *)
Variable Content : Type.
Variable stringify : Content -> string.     (* JSON.stringify *)

(** State and refs of the hook.  [lastContentJsonRef] mirrors
    [contentJson] after every render and is not kept apart. *)
Record Agent : Type := mkAgent {
  contentJson : option Content;
  isConnected : bool;
  error : option SubscribeStatus;           (* Realtime 연결 실패: status *)
  reconnectAttempts : nat;
  pollingTimer : option Timer;
  isLocalChange : bool;
  pendingSave : bool
}.

Definition mount (initialContentJson : option Content) : Agent :=
  mkAgent initialContentJson false None 0 None false false.

Definition isContentJsonEqual (a b : option Content) : bool :=
  match a, b with
  | None, None => true
  | Some x, Some y => (stringify x =? stringify y)%string
  | _, _ => false
  end.

Definition startPolling (now : Z) (a : Agent) : Agent :=
  mkAgent (contentJson a) (isConnected a) (error a) (reconnectAttempts a)
          (Some (mkTimer now POLLING_INTERVAL))
          (isLocalChange a) (pendingSave a).

Definition stopPolling (a : Agent) : Agent :=
  mkAgent (contentJson a) (isConnected a) (error a) (reconnectAttempts a)
          None (isLocalChange a) (pendingSave a).

(** The callback given to [.subscribe]. *)
Definition onStatus (now : Z) (status : SubscribeStatus) (a : Agent) : Agent :=
  match status with
  | SUBSCRIBED =>
      stopPolling
        (mkAgent (contentJson a) true None 0 (pollingTimer a)
                 (isLocalChange a) (pendingSave a))
  | CHANNEL_ERROR | TIMED_OUT =>
      let a' := mkAgent (contentJson a) false (Some status)
                        (reconnectAttempts a) (pollingTimer a)
                        (isLocalChange a) (pendingSave a) in
      if (reconnectAttempts a' <? MAX_RECONNECT_ATTEMPTS)%nat
      then mkAgent (contentJson a') (isConnected a') (error a')
                   (S (reconnectAttempts a')) (pollingTimer a')
                   (isLocalChange a') (pendingSave a')
      else startPolling now a'
  | CLOSED =>
      mkAgent (contentJson a) false (error a) (reconnectAttempts a)
              (pollingTimer a) (isLocalChange a) (pendingSave a)
  end.

Definition setContentJsonState (c : option Content) (a : Agent) : Agent :=
  mkAgent c (isConnected a) (error a) (reconnectAttempts a)
          (pollingTimer a) (isLocalChange a) (pendingSave a).

(** [fetchNoteContent], what the polling timer runs.  [fetched] is the
    store's answer to [select('content_json').eq('id', noteId).single()]:
    an error, which is logged, or the row's [content_json]. *)
Definition fetchNoteContent (fetched : PgError + option Content)
           (a : Agent) : Agent :=
  match fetched with
  | inl _ => a
  | inr newContentJson =>
      if negb (isLocalChange a)
         && negb (isContentJsonEqual newContentJson (contentJson a))
      then setContentJsonState newContentJson a
      else a
  end.

(** [setContentJson], a local edit. *)
Definition setContentJson (newContentJson : Content) (a : Agent) : Agent :=
  mkAgent (Some newContentJson) (isConnected a) (error a)
          (reconnectAttempts a) (pollingTimer a) true true.

(** The handler of the pushed [UPDATE] of the note's row. *)
Definition onUpdate (pushed : option Content) (a : Agent) : Agent :=
  let a' := if negb (isLocalChange a)
               && negb (isContentJsonEqual pushed (contentJson a))
            then setContentJsonState pushed a
            else a in
  mkAgent (contentJson a') (isConnected a') (error a')
          (reconnectAttempts a') (pollingTimer a') false (pendingSave a').

(** The agent after the subscribe callback ran on each of [events], an
    instant and a status, in turn. *)
Fixpoint run (events : list (Z * SubscribeStatus)) (a : Agent) : Agent :=
  match events with
  | [] => a
  | (now, status) :: rest => run rest (onStatus now status a)
  end.

(** The agent left alone from [from] to [to]: no report, push or local
    edit arrives, and the polling timer, if one is set, runs
    [fetchNoteContent] at each of its firings.  [fetchAt instant] is the
    store's answer to the fetch issued at [instant]; it is applied at
    that instant, the time the request takes being left out. *)
Definition elapse (fetchAt : Z -> PgError + option Content)
           (from to : Z) (a : Agent) : Agent :=
  match pollingTimer a with
  | None => a
  | Some t =>
      fold_left (fun a' instant => fetchNoteContent (fetchAt instant) a')
                (firingsBetween t from to) a
  end.

(** The agent over time: started at [from], it is left alone up to each
    report of [events], on which the subscribe callback runs. *)
Fixpoint live (fetchAt : Z -> PgError + option Content) (from : Z)
         (events : list (Z * SubscribeStatus)) (a : Agent) : Agent :=
  match events with
  | [] => a
  | (now, status) :: rest =>
      live fetchAt now rest (onStatus now status (elapse fetchAt from now a))
  end.

End Agent.

End RealtimeNote.

(* ===================================================================== *)
(** ** The words of the specification *)
(* ===================================================================== *)

Module Vocabulary.

Import Store NoteService.
Local Open Scope string_scope.
Local Open Scope Z_scope.

(** The participant asked less than 30 seconds before [now] and the
    request is pending or was denied. *)
Definition cooling (now : Z) (u : NoteUser) : Prop :=
  (permission_status u = requested \/ permission_status u = denied)
  /\ exists last : Z,
      permission_requested_at u = Some last /\ now - last < 30 * 1000.

(** [db'] is [db] with the record of the participant [userId] of the
    session [noteId] replaced by [u']; nothing else differs. *)
Definition replaces (noteId userId : string) (u' : NoteUser) (db db' : Db)
  : Prop :=
  notes db' = notes db
  /\ note_users db'
     = map (fun v => if key_is noteId userId v then u' else v) (note_users db).

(** The request of [u] is pending or denied and was made more than 24
    hours before [now]. *)
Definition stale (now : Z) (u : NoteUser) : Prop :=
  (permission_status u = requested \/ permission_status u = denied)
  /\ exists t : Z,
      permission_requested_at u = Some t /\ t < now - 24 * 60 * 60 * 1000.

(** A primary key: no two rows of [note_users] share their [id]. *)
Definition ids_unique (db : Db) : Prop := NoDup (map id (note_users db)).

(** No session has two records of one participant. *)
Definition one_record_each (db : Db) : Prop :=
  forall noteId userId : string,
    (List.length (filter (key_is noteId userId) (note_users db)) <= 1)%nat.

(** Every record with the role host may edit and has the status
    [granted]. *)
Definition hosts_intact (db : Db) : Prop :=
  forall h : NoteUser,
    In h (note_users db) -> role h = host ->
    can_edit h = true /\ permission_status h = granted.

(** [n] is the ceiling of [x / 1000]. *)
Definition ceiling_of_thousandths (x n : Z) : Prop :=
  1000 * (n - 1) < x <= 1000 * n.

(** The push subscription reported a failure. *)
Definition failed (status : RealtimeNote.SubscribeStatus) : Prop :=
  status = RealtimeNote.CHANNEL_ERROR \/ status = RealtimeNote.TIMED_OUT.

(** The row of [notes] once [userId] holds the lock, written at [now]. *)
Definition locked_for (userId : string) (now : Z) (n : Note) : Note :=
  mkNote (nid n) (note_code n) (title n) (content n) (content_json n)
         (host_password n) (guest_password n) true (Some userId)
         (created_at n) now.

End Vocabulary.

(* ===================================================================== *)
(** ** A session to run the operations on *)
(* ===================================================================== *)

Module Demo.

Import Store NoteService.
Local Open Scope string_scope.
Local Open Scope Z_scope.

Definition theNote : Note :=
  mkNote "n1" "ABC234" "minutes" [] None "1234" "5678" false None 0 0.

Definition theHost : NoteUser :=
  mkNoteUser "r1" "n1" "h1" "host" host 0 true granted None.

Definition theGuest : NoteUser :=
  mkNoteUser "r2" "n1" "g1" "guest" guest 0 false none None.

Definition session : Db := mkDb [theNote] [theHost; theGuest].

(** The session while [holder] holds the lock. *)
Definition lockedSession (holder : string) : Db :=
  mkDb [mkNote "n1" "ABC234" "minutes" [] None "1234" "5678"
               true (Some holder) 0 0]
       [theHost; theGuest].

(** A store whose note reads old up to [change] and new after it: its
    answers to the fetches of a poll. *)
Definition changingAt (change : Z) (instant : Z) : PgError + option string :=
  inr (Some (if change <? instant then "new" else "old")).

End Demo.

(* ===================================================================== *)
(** ** [lib/note-service.ts]: codes, passwords, content, leaving, deleting *)
(* ===================================================================== *)

Module NoteContent.

Import Store NoteService.
Local Open Scope string_scope.
Local Open Scope Z_scope.

(** *** [generateNoteCode] *)

Definition chars : string := "ABCDEFGHJKLMNPQRSTUVWXYZ23456789".

(** [s.charAt(i)]: the empty string out of range. *)
Definition charAt (s : string) (i : Z) : string :=
  if i <? 0 then ""
  else match String.get (Z.to_nat i) s with
       | Some c => String c ""
       | None => ""
       end.

(** [Math.floor(Math.random() * chars.length)], [r] being the value of
    [Math.random()].  The length is 32, a power of two, so the product
    of the double is exact and the rational has the same floor. *)
Definition randomIndex (r : Q) : Z :=
  Qfloor (r * inject_Z (Z.of_nat (String.length chars)))%Q.

(** The [for] loop with [n] turns left, [i] the turns done; [random i]
    is the value of the i-th call of [Math.random()]. *)
Fixpoint generateNoteCode_loop (n i : nat) (random : nat -> Q)
         (code : string) : string :=
  match n with
  | O => code
  | S n' =>
      generateNoteCode_loop n' (S i) random
                            (code ++ charAt chars (randomIndex (random i)))
  end.

Definition generateNoteCode (random : nat -> Q) : string :=
  generateNoteCode_loop 6 0 random "".

(** *** [getNoteById] *)

(** The row, or null: the store's only error is PGRST116. *)
Definition getNoteById (db : Db) (noteId : string) : option Note :=
  if falsy noteId then None
  else single (filter (fun n => (nid n =? noteId)%string) (notes db)).

(** *** [verifyPassword] *)

Record PasswordVerifyResult : Type := mkVerify {
  valid : bool;
  verified_role : option UserRole      (* the field [role] *)
}.

Definition verifyPassword (note : Note) (password : string)
  : PasswordVerifyResult :=
  if (password =? host_password note)%string then mkVerify true (Some host)
  else if (password =? guest_password note)%string
  then mkVerify true (Some guest)
  else mkVerify false None.

(** *** [updateNoteContent], [updateNoteContentJson], [updateNoteTitle] *)

Definition set_content (text : Tiptap.jsstring) (now : Z) (n : Note) : Note :=
  mkNote (nid n) (note_code n) (title n) text (content_json n)
         (host_password n) (guest_password n) (is_locked n) (locked_by n)
         (created_at n) now.

Definition set_content_json (json : Tiptap.TiptapContent)
           (plainText : Tiptap.jsstring) (now : Z) (n : Note) : Note :=
  mkNote (nid n) (note_code n) (title n) plainText (Some json)
         (host_password n) (guest_password n) (is_locked n) (locked_by n)
         (created_at n) now.

Definition set_title (newTitle : string) (now : Z) (n : Note) : Note :=
  mkNote (nid n) (note_code n) newTitle (content n) (content_json n)
         (host_password n) (guest_password n) (is_locked n) (locked_by n)
         (created_at n) now.

Definition updateNoteContent (now : Z) (db : Db) (noteId : string)
           (text : Tiptap.jsstring) : Result (Note * Db) :=
  if falsy noteId then Err InvalidNoteId
  else written (update_note_single (fun n => (nid n =? noteId)%string)
                                   (set_content text now) db).

Definition updateNoteContentJson (now : Z) (db : Db) (noteId : string)
           (contentJson : Tiptap.TiptapContent) : Result (Note * Db) :=
  if falsy noteId then Err InvalidNoteId
  else
    let plainText := Tiptap.tiptapJsonToText (Some contentJson) in
    written (update_note_single (fun n => (nid n =? noteId)%string)
                                (set_content_json contentJson plainText now)
                                db).

Definition updateNoteTitle (now : Z) (db : Db) (noteId : string)
           (newTitle : string) : Result (Note * Db) :=
  if falsy noteId then Err InvalidNoteId
  else written (update_note_single (fun n => (nid n =? noteId)%string)
                                   (set_title newTitle now) db).

(** [note.content_json || textToTiptapJson(note.content)], the JSON the
    routes of [api/notes/[code]] answer with. *)
Definition servedContentJson (n : Note) : Tiptap.TiptapContent :=
  match content_json n with
  | Some json => json
  | None => Tiptap.textToTiptapJson (content n)
  end.

(** *** [getNoteUser] *)

Definition getNoteUser (db : Db) (noteId userId : string) : option NoteUser :=
  if falsy noteId || falsy userId then None
  else select_user db noteId userId.

(** *** [deleteNote]: the participants' rows first, then the note's. *)

Definition deleteNote (db : Db) (noteId : string) : Result Db :=
  if falsy noteId then Err InvalidNoteId
  else
    let db1 := set_note_users db
                 (filter (fun u => negb (note_id u =? noteId)%string)
                         (note_users db)) in
    Ok (set_notes db1
          (filter (fun n => negb (nid n =? noteId)%string) (notes db1))).

End NoteContent.

(* ===================================================================== *)
(** ** [app/api/notes/[code]/route.ts]: DELETE and its rate limit *)
(* ===================================================================== *)

Module NoteRoute.

Import Store NoteService NoteContent.
Local Open Scope string_scope.
Local Open Scope Z_scope.

(** An entry of [rateLimitMap]. *)
Record RateLimit : Type := mkRateLimit { failCount : Z; lockedUntil : Z }.

(** [rateLimitMap], a [Map] from note code to entry: [get] is
    application. *)
Definition RateLimitMap : Type := string -> option RateLimit.

Definition emptyMap : RateLimitMap := fun _ => None.

Definition map_set (key : string) (v : RateLimit) (m : RateLimitMap)
  : RateLimitMap :=
  fun k => if (k =? key)%string then Some v else m k.

Definition map_delete (key : string) (m : RateLimitMap) : RateLimitMap :=
  fun k => if (k =? key)%string then None else m k.

Definition MAX_FAILURES : Z := 5.
Definition LOCK_DURATION_MS : Z := 10 * 60 * 1000.

(** The answers of DELETE, by status. *)
Inductive Response : Type :=
| Locked429 (remainingMinutes : Z)  (* N분 후 다시 시도해주세요 *)
| LockedNow429                      (* 10분 후 다시 시도해주세요 *)
| BadPassword400
| NotFound404
| WrongPassword401
| Deleted200
| Failed500.

Definition isDigit (c : Ascii.ascii) : bool :=
  (48 <=? Ascii.nat_of_ascii c)%nat && (Ascii.nat_of_ascii c <=? 57)%nat.

(** [/^\d{4}$/.test(s)] on a string. *)
Definition isFourDigits (s : string) : bool :=
  (String.length s =? 4)%nat && forallb isDigit (list_ascii_of_string s).

(** [Math.ceil(ms / 60000)] *)
Definition ceilMinutes (ms : Z) : Z := - ((- ms) / 60000).

Section Routes.

(** [String.prototype.toUpperCase]. *)
Variable toUpperCase : string -> string.

(** [getNoteByCode]: the row or null. *)
Definition getNoteByCode (db : Db) (noteCode : string) : option Note :=
  single (filter (fun n => (note_code n =? toUpperCase noteCode)%string)
                 (notes db)).

(** DELETE at instant [now] for the path parameter [code] and the
    [password] of the body, a string or absent: the answer, the map and
    the store afterwards. *)
Definition DELETE (now : Z) (m : RateLimitMap) (db : Db)
           (code : string) (password : option string)
  : Response * RateLimitMap * Db :=
  let noteCode := toUpperCase code in
  let rateLimitKey := noteCode in
  let proceed :=
    match password with
    | None => (BadPassword400, m, db)
    | Some pw =>
        if falsy pw || negb (isFourDigits pw) then (BadPassword400, m, db)
        else
          match getNoteByCode db noteCode with
          | None => (NotFound404, m, db)
          | Some note =>
              if negb (pw =? host_password note)%string then
                let currentLimit :=
                  match m rateLimitKey with
                  | Some e => e
                  | None => mkRateLimit 0 0
                  end in
                let count := failCount currentLimit + 1 in
                if MAX_FAILURES <=? count then
                  (LockedNow429,
                   map_set rateLimitKey
                           (mkRateLimit 0 (now + LOCK_DURATION_MS)) m,
                   db)
                else
                  (WrongPassword401,
                   map_set rateLimitKey
                           (mkRateLimit count (lockedUntil currentLimit)) m,
                   db)
              else
                let m' := map_delete rateLimitKey m in
                match deleteNote db (nid note) with
                | Ok db' => (Deleted200, m', db')
                | Err _ => (Failed500, m', db)
                end
          end
    end in
  match m rateLimitKey with
  | Some rateLimit =>
      if now <? lockedUntil rateLimit
      then (Locked429 (ceilMinutes (lockedUntil rateLimit - now)), m, db)
      else proceed
  | None => proceed
  end.

(** DELETE on each of [requests], an instant and a password, in turn:
    the answers, the map and the store at the end. *)
Fixpoint DELETE_all (requests : list (Z * option string))
         (m : RateLimitMap) (db : Db) (code : string)
  : list Response * RateLimitMap * Db :=
  match requests with
  | [] => ([], m, db)
  | (now, password) :: rest =>
      let '(r, m1, db1) := DELETE now m db code password in
      let '(rs, m2, db2) := DELETE_all rest m1 db1 code in
      (r :: rs, m2, db2)
  end.

End Routes.

End NoteRoute.

(* ===================================================================== *)
(** ** [hooks/useEditPermission.ts]: the client's view of permissions *)
(* ===================================================================== *)

Module EditPermission.

Import Store NoteService.
Local Open Scope string_scope.
Local Open Scope Z_scope.

Definition COOLDOWN_DURATION : Q := inject_Z 30.

(** [cooldownSeconds] and whether [cooldownTimerRef] holds an interval. *)
Record Countdown : Type := mkCountdown {
  cooldownSeconds : Z;
  cooldownTimer : bool
}.

Definition startCooldown (seconds : Z) (c : Countdown) : Countdown :=
  mkCountdown seconds true.

(** One firing of the interval, which only a running timer has. *)
Definition tick (c : Countdown) : Countdown :=
  if cooldownTimer c then
    if cooldownSeconds c <=? 1 then mkCountdown 0 false
    else mkCountdown (cooldownSeconds c - 1) true
  else c.

Fixpoint ticks (k : nat) (c : Countdown) : Countdown :=
  match k with
  | O => c
  | S k' => ticks k' (tick c)
  end.

(** The cooldown part of [fetchNoteUsers] for the current user's record
    read at [now]. *)
Definition syncCooldown (now : Z) (currentUser : NoteUser) (c : Countdown)
  : Countdown :=
  match permission_requested_at currentUser with
  | Some requestTime =>
      if status_eqb (permission_status currentUser) requested
         || status_eqb (permission_status currentUser) denied
      then
        let elapsed := (inject_Z (now - requestTime) / inject_Z 1000)%Q in
        let remaining := Z.max 0 (Qceiling (COOLDOWN_DURATION - elapsed)%Q) in
        if 0 <? remaining then startCooldown remaining c else c
      else c
  | None => c
  end.

(** The state of the hook mounted for [userId]. *)
Record Hook : Type := mkHook {
  noteUsers : list NoteUser;
  canEdit : bool;
  permissionStatus : PermissionStatus;
  countdown : Countdown
}.

Definition pendingRequests (h : Hook) : list NoteUser :=
  filter (fun u => role_eqb (role u) guest
                   && status_eqb (permission_status u) requested)
         (noteUsers h).

(** The handler of a pushed UPDATE of [note_users]; [updatedUser] is
    [payload.new], the whole row, so that [{ ...u, ...updatedUser }] is
    [updatedUser]. *)
Definition onUserUpdate (userId : string) (isHost : bool)
           (updatedUser : NoteUser) (h : Hook) : Hook :=
  let users :=
    map (fun u => if (user_id u =? user_id updatedUser)%string
                  then updatedUser else u) (noteUsers h) in
  if (user_id updatedUser =? userId)%string then
    mkHook users
           (isHost || can_edit updatedUser)
           (permission_status updatedUser)
           (if status_eqb (permission_status updatedUser) granted
            then mkCountdown 0 false else countdown h)
  else mkHook users (canEdit h) (permissionStatus h) (countdown h).

(** The handler of a pushed INSERT. *)
Definition onUserInsert (newUser : NoteUser) (h : Hook) : Hook :=
  mkHook (if existsb (fun u => (user_id u =? user_id newUser)%string)
                     (noteUsers h)
          then noteUsers h
          else noteUsers h ++ [newUser])%list
         (canEdit h) (permissionStatus h) (countdown h).

(** The handler of a pushed DELETE. *)
Definition onUserDelete (deletedUser : NoteUser) (h : Hook) : Hook :=
  mkHook (filter (fun u => negb (user_id u =? user_id deletedUser)%string)
                 (noteUsers h))
         (canEdit h) (permissionStatus h) (countdown h).

End EditPermission.

(* ===================================================================== *)
(** ** [hooks/useNoteLock.ts]: the subscription and its retries *)
(* ===================================================================== *)

Module LockChannel.

Import RealtimeNote.
Local Open Scope Z_scope.

Definition MAX_RECONNECT_ATTEMPTS : nat := 3.

(** [isConnected] and [reconnectAttemptsRef] of the hook.  The [error]
    state, which the subscription shares with the lock actions, is not
    part of this view. *)
Record Channel : Type := mkChannel {
  isConnected : bool;
  reconnectAttempts : nat
}.

(** The callback given to [.subscribe]: the next state and the delay of
    the [setTimeout(subscribeToLock, ..)] it sets, if any. *)
Definition onStatus (status : SubscribeStatus) (c : Channel)
  : Channel * option Z :=
  match status with
  | SUBSCRIBED => (mkChannel true 0, None)
  | CHANNEL_ERROR | TIMED_OUT =>
      if (reconnectAttempts c <? MAX_RECONNECT_ATTEMPTS)%nat
      then (mkChannel false (S (reconnectAttempts c)),
            Some (1000 * Z.of_nat (S (reconnectAttempts c))))
      else (mkChannel false (reconnectAttempts c), None)
  | CLOSED => (mkChannel false (reconnectAttempts c), None)
  end.

(** The delays set while the callback runs on [statuses] in turn. *)
Fixpoint delays (statuses : list SubscribeStatus) (c : Channel)
  : list (option Z) * Channel :=
  match statuses with
  | [] => ([], c)
  | s :: rest =>
      let '(c1, d) := onStatus s c in
      let '(ds, c2) := delays rest c1 in
      (d :: ds, c2)
  end.

End LockChannel.

(* ===================================================================== *)
(** ** [hooks/usePresence.ts]: who is connected *)
(* ===================================================================== *)

Module Presence.

Import Store.
Local Open Scope Z_scope.

(** [PresenceUser]; [online_at] is the instant its ISO string denotes.
    The optional [can_edit], which the hook never reads or sets, is
    left out. *)
Record PresenceUser : Type := mkPresenceUser {
  pid : string;                 (* the field [id] *)
  pname : string;               (* [username] *)
  prole : UserRole;             (* [role] *)
  online_at : Z
}.

(** [if (user.id)] *)
Definition hasId (u : PresenceUser) : bool :=
  negb (pid u =? "")%string.

(** The user list before it is sorted: every presence with an id, in the
    order of [Object.values] and of each entry's array. *)
Definition collect (presenceState : list (string * list PresenceUser))
  : list PresenceUser :=
  filter hasId (List.concat (map snd presenceState)).

(** [Array.prototype.sort] by [online_at]: the sort is stable, which
    leaves one possible result, that of inserting each element behind
    those not later than it. *)
Fixpoint insertByTime (u : PresenceUser) (sorted : list PresenceUser)
  : list PresenceUser :=
  match sorted with
  | [] => [u]
  | v :: rest =>
      if online_at v <=? online_at u then v :: insertByTime u rest
      else u :: sorted
  end.

Definition sortByTime (l : list PresenceUser) : list PresenceUser :=
  fold_left (fun acc u => insertByTime u acc) l [].

Definition extractUsers (presenceState : list (string * list PresenceUser))
  : list PresenceUser :=
  sortByTime (collect presenceState).

End Presence.

(* ===================================================================== *)
(** ** The anonymous user id kept in [localStorage] *)
(* ===================================================================== *)

Module UserId.

Local Open Scope string_scope.

(** [hasWindow] is [typeof window !== 'undefined']; [storage] is the
    value of [localStorage] at the key [livenote_user_id]; [uuid] is the
    value [crypto.randomUUID()] returns if it is called. *)
Definition generateUserId (hasWindow : bool) (uuid : string)
           (storage : option string) : string * option string :=
  if negb hasWindow then (uuid, storage)
  else match storage with
       | Some existingId =>
           if negb (existingId =? "") then (existingId, storage)
           else (uuid, Some uuid)
       | None => (uuid, Some uuid)
       end.

Definition getUserId (hasWindow : bool) (storage : option string)
  : option string :=
  if negb hasWindow then None else storage.

Definition clearUserId (hasWindow : bool) (storage : option string)
  : option string :=
  if negb hasWindow then storage else None.

End UserId.

(* ===================================================================== *)
(** ** Further words *)
(* ===================================================================== *)

Module Terms.

Import Store NoteService.
Local Open Scope string_scope.
Local Open Scope Z_scope.

(** A note of the store already has the identifier or the code. *)
Definition taken (db : Db) (noteId code : string) : Prop :=
  exists m : Note, In m (notes db) /\ (nid m = noteId \/ note_code m = code).

(** The text has a character that is not white space. *)
Definition inked (s : Tiptap.jsstring) : Prop :=
  existsb (fun c => negb (Tiptap.isWhiteSpace c)) s = true.

(** No two entries of a participant list share their [user_id]. *)
Definition users_distinct (l : list NoteUser) : Prop :=
  NoDup (map user_id l).

End Terms.

(* ===================================================================== *)
(** ** Words for the DELETE route *)
(* ===================================================================== *)

Module RouteTerms.

Import Store NoteService NoteContent NoteRoute.
Local Open Scope string_scope.
Local Open Scope Z_scope.

(** The code is under a lock at [now]. *)
Definition locked_out (m : RateLimitMap) (key : string) (now : Z) : Prop :=
  exists e : RateLimit, m key = Some e /\ now < lockedUntil e.

(** [pw] is a well-formed password that is not the host's of the note
    the code names. *)
Definition wrong_password (toUpperCase : string -> string) (db : Db)
           (code pw : string) : Prop :=
  isFourDigits pw = true
  /\ exists note : Note,
      getNoteByCode toUpperCase db (toUpperCase code) = Some note
      /\ pw <> host_password note.

(** The failures counted for the code, none when it has no entry. *)
Definition failures (m : RateLimitMap) (key : string) : Z :=
  match m key with
  | Some e => failCount e
  | None => 0
  end.

End RouteTerms.

(* ===================================================================== *)
(** ** What happens to the sync agent without a push *)
(* ===================================================================== *)

Module AgentTerms.

Import Store RealtimeNote.

Section Quiet.

Variable Content : Type.
Variable stringify : Content -> string.

(** A firing of the polling timer with the store's answer, or a report
    of the subscription. *)
Inductive QuietEvent : Type :=
| Polled (fetched : PgError + option Content)
| Reported (now : Z) (status : SubscribeStatus).

Definition quietStep (a : Agent Content) (e : QuietEvent) : Agent Content :=
  match e with
  | Polled fetched => fetchNoteContent stringify fetched a
  | Reported now status => onStatus now status a
  end.

Definition quietRun (events : list QuietEvent) (a : Agent Content)
  : Agent Content :=
  fold_left quietStep events a.

End Quiet.

End AgentTerms.

(* ===================================================================== *)
(** * Properties *)
(* ===================================================================== *)

Unset Implicit Arguments.

(** ** Text to Tiptap JSON and back *)

Section TiptapRoundTrip.

Import Tiptap.
Local Open Scope N_scope.

Lemma split_not_nil (sep : char16) (s : jsstring) : split sep s <> [].
Proof.
  destruct s as [|c s]; simpl; [discriminate|].
  destruct (c =? sep); [discriminate|].
  destruct (split sep s); discriminate.
Qed.

Lemma join_cons_line (sep : jsstring) (c : char16) (l : jsstring)
      (ls : list jsstring) :
  join sep ((c :: l) :: ls) = c :: join sep (l :: ls).
Proof. destruct ls; reflexivity. Qed.

Lemma join_split (sep : char16) (s : jsstring) :
  join [sep] (split sep s) = s.
Proof.
  induction s as [|c s IH]; simpl; [reflexivity|].
  destruct (N.eqb_spec c sep) as [->|_].
  - pose proof (split_not_nil sep s) as Hne.
    destruct (split sep s) as [|l ls]; [contradiction|].
    simpl in *. now rewrite IH.
  - pose proof (split_not_nil sep s) as Hne.
    destruct (split sep s) as [|l ls]; [contradiction|].
    rewrite join_cons_line. now rewrite IH.
Qed.

Lemma nodeText_paragraph (line : jsstring) : nodeText (paragraph line) = line.
Proof. destruct line; reflexivity. Qed.

Lemma nodeText_paragraphs (lines : list jsstring) :
  map nodeText (map paragraph lines) = lines.
Proof.
  induction lines as [|l ls IH]; simpl; [reflexivity|].
  now rewrite nodeText_paragraph, IH.
Qed.

Lemma trimStart_nil_iff (s : jsstring) :
  trimStart s = [] <-> forallb isWhiteSpace s = true.
Proof.
  induction s as [|c s IH]; simpl; [tauto|].
  destruct (isWhiteSpace c); simpl; [exact IH|].
  split; discriminate.
Qed.

Lemma trimStart_suffix (s : jsstring) :
  exists blank, s = blank ++ trimStart s /\ forallb isWhiteSpace blank = true.
Proof.
  induction s as [|c s (blank & Hs & Hb)]; simpl.
  - exists []. split; reflexivity.
  - destruct (isWhiteSpace c) eqn:Hc.
    + exists (c :: blank). simpl. rewrite Hc, Hb. split; [now f_equal|reflexivity].
    + exists []. split; reflexivity.
Qed.

Lemma forallb_rev (A : Type) (p : A -> bool) (l : list A) :
  forallb p (rev l) = forallb p l.
Proof.
  induction l as [|a l IH]; simpl; [reflexivity|].
  rewrite forallb_app, IH. simpl. rewrite andb_true_r. apply andb_comm.
Qed.

Lemma trim_nil_iff (s : jsstring) :
  trim s = [] <-> forallb isWhiteSpace s = true.
Proof.
  unfold trim, trimEnd. split.
  - intros H.
    assert (Hr : trimStart (rev (trimStart s)) = []).
    { destruct (trimStart (rev (trimStart s))); [reflexivity|].
      simpl in H. now apply app_eq_nil in H as [_ ?]. }
    apply trimStart_nil_iff in Hr. rewrite forallb_rev in Hr.
    destruct (trimStart_suffix s) as (blank & Hs & Hb).
    rewrite Hs, forallb_app, Hb, Hr. reflexivity.
  - intros H. apply trimStart_nil_iff in H. now rewrite H.
Qed.

Lemma some_ink_not_blank (s : jsstring) :
  existsb (fun c => negb (isWhiteSpace c)) s = true ->
  forallb isWhiteSpace s = false.
Proof.
  induction s as [|c s IH]; simpl; [discriminate|].
  destruct (isWhiteSpace c); simpl; [exact IH|reflexivity].
Qed.

Lemma jsstring_eqb_nil (s : jsstring) :
  jsstring_eqb s [] = true <-> s = [].
Proof.
  unfold jsstring_eqb.
  destruct (list_eq_dec N.eq_dec s _) as [E|E]; split; intros H.
  - exact E.
  - reflexivity.
  - discriminate.
  - exfalso. exact (E H).
Qed.

(** C10.  A text with a character that is not white space comes back
    from [textToTiptapJson] then [tiptapJsonToText] unchanged, line
    breaks and empty lines included; a text that is empty or all white
    space becomes the empty document, which reads back as the empty
    string. *)
Theorem text_tiptap_round_trip :
  (forall s : jsstring,
      existsb (fun c => negb (isWhiteSpace c)) s = true ->
      tiptapJsonToText (Some (textToTiptapJson s)) = s)
  /\ (forall s : jsstring,
      forallb isWhiteSpace s = true ->
      textToTiptapJson s = emptyDoc
      /\ tiptapJsonToText (Some (textToTiptapJson s)) = []).
Proof.
  split.
  - intros s Hink. unfold textToTiptapJson.
    assert (Ht : truthy s = true) by (destruct s; [discriminate|reflexivity]).
    assert (He : jsstring_eqb (trim s) [] = false).
    { destruct (jsstring_eqb (trim s) []) eqn:E; [|reflexivity].
      apply jsstring_eqb_nil, trim_nil_iff in E.
      now rewrite (some_ink_not_blank s Hink) in E. }
    rewrite Ht, He. simpl.
    rewrite nodeText_paragraphs. apply join_split.
  - intros s Hblank.
    assert (E : textToTiptapJson s = emptyDoc).
    { unfold textToTiptapJson.
      apply trim_nil_iff, jsstring_eqb_nil in Hblank.
      rewrite Hblank. now rewrite orb_true_r. }
    rewrite E. split; reflexivity.
Qed.

(** The round trip on three lines, the middle one empty. *)
Lemma text_tiptap_round_trip_witness :
  tiptapJsonToText (Some (textToTiptapJson [97; 10; 10; 98]))
  = [97; 10; 10; 98].
Proof. apply (proj1 text_tiptap_round_trip). reflexivity. Defined.

End TiptapRoundTrip.

(** ** The store *)

Section StoreFacts.

Import Store NoteService Vocabulary.
Local Open Scope string_scope.

Lemma single_some (A : Type) (rows : list A) (r : A) :
  single rows = Some r <-> rows = [r].
Proof.
  destruct rows as [|a [|b rows]]; simpl; split; intros H;
    try discriminate; congruence.
Qed.

Lemma falsy_false (s : string) : s <> "" -> falsy s = false.
Proof. intros H. unfold falsy. now apply String.eqb_neq. Qed.

Lemma filter_update_where (A : Type) (p : A -> bool) (patch : A -> A)
      (rows : list A) :
  (forall r, p r = true -> p (patch r) = true) ->
  filter p (update_where p patch rows) = map patch (filter p rows).
Proof.
  intros Hkeep. unfold update_where.
  induction rows as [|r rows IH]; simpl; [reflexivity|].
  destruct (p r) eqn:Hr; simpl.
  - now rewrite (Hkeep r Hr), IH.
  - now rewrite Hr, IH.
Qed.

Lemma filter_other_update_where (A : Type) (p q : A -> bool) (patch : A -> A)
      (rows : list A) :
  (forall r, q (patch r) = q r) ->
  filter q (update_where p patch rows) = update_where p patch (filter q rows).
Proof.
  intros Hsame. unfold update_where.
  induction rows as [|r rows IH]; simpl; [reflexivity|].
  destruct (p r) eqn:Hp.
  - rewrite Hsame. destruct (q r); simpl; now rewrite ?Hp, IH.
  - destruct (q r); simpl; now rewrite ?Hp, IH.
Qed.

Lemma update_where_only (A : Type) (p : A -> bool) (patch : A -> A)
      (rows : list A) (r : A) :
  filter p rows = [r] ->
  update_where p patch rows = map (fun v => if p v then patch r else v) rows.
Proof.
  unfold update_where. revert r.
  induction rows as [|a rows IH]; intros r H; simpl in *; [reflexivity|].
  destruct (p a) eqn:Ha.
  - injection H as -> Hrest. f_equal.
    apply map_ext_in. intros v Hv.
    destruct (p v) eqn:Hpv; [|reflexivity].
    assert (In v (filter p rows)) by (apply filter_In; auto).
    rewrite Hrest in *. contradiction.
  - f_equal. now apply IH.
Qed.

(** A write that follows a successful [.single()] read of the same rows
    succeeds, and changes the one row read. *)
Lemma update_user_single_found (p : NoteUser -> bool)
      (patch : NoteUser -> NoteUser) (db : Db) (u : NoteUser) :
  single (filter p (note_users db)) = Some u ->
  update_user_single p patch db
  = inr (patch u,
         set_note_users db
           (map (fun v => if p v then patch u else v) (note_users db))).
Proof.
  intros H. apply single_some in H. unfold update_user_single.
  rewrite (update_where_only _ p patch _ _ H), H. reflexivity.
Qed.

Lemma select_user_key (db : Db) (noteId userId : string) (u : NoteUser) :
  select_user db noteId userId = Some u ->
  note_id u = noteId /\ user_id u = userId /\ In u (note_users db).
Proof.
  unfold select_user. intros H. apply single_some in H.
  assert (Hin : In u (filter (key_is noteId userId) (note_users db)))
    by (rewrite H; now left).
  apply filter_In in Hin as [Hin Hk]. unfold key_is in Hk.
  apply andb_true_iff in Hk as [Hn Hu].
  apply String.eqb_eq in Hn, Hu. auto.
Qed.

Lemma select_host_is_host (db : Db) (noteId userId : string) (h : NoteUser) :
  select_host db noteId userId = Some h ->
  role h = host /\ note_id h = noteId /\ user_id h = userId
  /\ In h (note_users db).
Proof.
  unfold select_host. intros H. apply single_some in H.
  assert (Hin : In h (filter (fun u => key_is noteId userId u
                                       && role_eqb (role u) host)
                             (note_users db)))
    by (rewrite H; now left).
  apply filter_In in Hin as [Hin Hk].
  apply andb_true_iff in Hk as [Hk Hr]. unfold key_is in Hk.
  apply andb_true_iff in Hk as [Hn Hu].
  apply String.eqb_eq in Hn, Hu.
  destruct (role h); [auto|discriminate].
Qed.

(** After the one record of a key is replaced by a record of the same
    key, the key still reads that record. *)
Lemma select_user_replaced (db : Db) (noteId userId : string)
      (u u' : NoteUser) :
  select_user db noteId userId = Some u ->
  key_is noteId userId u' = true ->
  select_user
    (set_note_users db
       (map (fun v => if key_is noteId userId v then u' else v)
            (note_users db))) noteId userId = Some u'.
Proof.
  unfold select_user. intros H Hk. apply single_some in H. simpl.
  change (map (fun v => if key_is noteId userId v then u' else v)
              (note_users db))
    with (update_where (key_is noteId userId) (fun _ => u') (note_users db)).
  rewrite filter_update_where by auto. now rewrite H.
Qed.

End StoreFacts.

(** ** Requesting edit permission *)

Section RequestPermission.

Import Store NoteService Vocabulary.
Local Open Scope string_scope.
Local Open Scope Z_scope.

Lemma Qltb_elapsed (now last : Z) :
  Qltb (elapsedSeconds now last) COOLDOWN_SECONDS = (now - last <? 30 * 1000).
Proof.
  cbv [Qltb elapsedSeconds COOLDOWN_SECONDS Qle_bool Qdiv Qmult Qinv
       inject_Z Qnum Qden].
  change (Z.pos (1 * 1000)) with 1000.
  destruct (Z.ltb_spec (now - last) (30 * 1000));
    destruct (Z.leb_spec (30 * 1000) ((now - last) * 1 * 1));
    simpl; try reflexivity; lia.
Qed.

Lemma remainingSeconds_elapsed (now last : Z) :
  remainingSeconds (elapsedSeconds now last)
  = - ((now - last - 30 * 1000) / 1000).
Proof.
  cbv [remainingSeconds elapsedSeconds COOLDOWN_SECONDS Qceiling Qfloor
       Qminus Qplus Qopp Qdiv Qmult Qinv inject_Z Qnum Qden].
  change (Z.pos (1 * (1 * 1000))) with 1000.
  change (Z.pos (1 * 1000)) with 1000.
  f_equal. f_equal. lia.
Qed.

(** The value the code rounds up to is the ceiling of the thousandths
    left of the 30 seconds. *)
Lemma remainingSeconds_is_ceiling (now last : Z) :
  ceiling_of_thousandths (30 * 1000 - (now - last))
                         (remainingSeconds (elapsedSeconds now last)).
Proof.
  rewrite remainingSeconds_elapsed. unfold ceiling_of_thousandths.
  pose proof (Z.div_mod (now - last - 30 * 1000) 1000 ltac:(lia)) as Hd.
  pose proof (Z.mod_pos_bound (now - last - 30 * 1000) 1000 ltac:(lia)) as Hm.
  lia.
Qed.

Lemma cooldownCheck_cooling (now : Z) (u : NoteUser) :
  cooling now u ->
  exists last : Z,
    permission_requested_at u = Some last
    /\ cooldownCheck now u = Some (remainingSeconds (elapsedSeconds now last)).
Proof.
  intros [Hst (last & Hlast & Hlt)]. exists last. split; [exact Hlast|].
  unfold cooldownCheck. rewrite Hlast. cbv zeta. rewrite Qltb_elapsed.
  apply Z.ltb_lt in Hlt. rewrite Hlt.
  destruct Hst as [-> | ->]; reflexivity.
Qed.

Lemma cooldownCheck_not_cooling (now : Z) (u : NoteUser) :
  ~ cooling now u -> cooldownCheck now u = None.
Proof.
  intros Hn. unfold cooldownCheck.
  destruct (permission_requested_at u) as [last|] eqn:Hlast; [|reflexivity].
  cbv zeta. rewrite Qltb_elapsed.
  destruct (Z.ltb_spec (now - last) (30 * 1000)) as [Hlt|Hge];
    [|reflexivity].
  destruct (permission_status u) eqn:Hst; simpl; try reflexivity;
    exfalso; apply Hn; (split; [auto | exists last; auto]).
Qed.

(** C2.  [requestEditPermission] on well-formed identifiers: it fails
    when the participant has no record, when the participant is the
    host, when the participant may already edit, and when the request is
    pending or denied and less than 30 seconds old; in every other case
    the record becomes [requested] with the request dated [now], its
    edit flag and the rest of the store as they were, and is returned. *)
Theorem requestEditPermission_outcomes
        (now : Z) (db : Db) (noteId userId : string) :
  noteId <> "" -> userId <> "" ->
  let result := requestEditPermission now db noteId userId in
  (select_user db noteId userId = None -> result = Err UserNotFound)
  /\ (forall u : NoteUser,
         select_user db noteId userId = Some u ->
         (role u = host -> result = Err HostAlreadyEditor)
         /\ (role u = guest -> can_edit u = true ->
             result = Err AlreadyGranted)
         /\ (role u = guest -> can_edit u = false -> cooling now u ->
             exists remaining : Z, result = Err (Cooldown remaining))
         /\ (role u = guest -> can_edit u = false -> ~ cooling now u ->
             exists (u' : NoteUser) (db' : Db),
               result = Ok (u', db')
               /\ u' = mkNoteUser (id u) (note_id u) (user_id u) (username u)
                                  (role u) (joined_at u) (can_edit u)
                                  requested (Some now)
               /\ replaces noteId userId u' db db'
               /\ select_user db' noteId userId = Some u')).
Proof.
  intros Hn Hu result. subst result. unfold requestEditPermission.
  rewrite (falsy_false _ Hn), (falsy_false _ Hu).
  split.
  - intros ->. reflexivity.
  - intros u Hsel. rewrite Hsel. repeat split.
    + intros ->. reflexivity.
    + intros -> ->. reflexivity.
    + intros -> -> Hc. simpl.
      destruct (cooldownCheck_cooling _ _ Hc) as (last & _ & ->). eauto.
    + intros Hr Hce Hc. rewrite Hr, Hce. simpl.
      rewrite (cooldownCheck_not_cooling _ _ Hc).
      unfold select_user in Hsel.
      rewrite (update_user_single_found _ (set_requested now) db u Hsel).
      simpl. do 2 eexists. split; [reflexivity|].
      destruct (select_user_key db noteId userId u Hsel) as (Hk1 & Hk2 & _).
      split; [unfold set_requested; now rewrite Hr, Hce|].
      split; [split; reflexivity|].
      apply select_user_replaced with (u := u); [exact Hsel|].
      unfold key_is, set_requested. simpl.
      now rewrite Hk1, Hk2, !String.eqb_refl.
Qed.

(** A guest of the demonstration session asks at instant 1000. *)
Lemma requestEditPermission_outcomes_witness :
  exists (u' : NoteUser) (db' : Db),
    requestEditPermission 1000 Demo.session "n1" "g1" = Ok (u', db')
    /\ permission_status u' = requested
    /\ permission_requested_at u' = Some 1000
    /\ can_edit u' = false.
Proof.
  destruct (requestEditPermission_outcomes 1000 Demo.session "n1" "g1")
    as [_ H]; try discriminate.
  destruct (H Demo.theGuest eq_refl) as (_ & _ & _ & Hok).
  assert (Hnc : ~ cooling 1000 Demo.theGuest)
    by (intros [[Hs|Hs] _]; discriminate).
  destruct (Hok eq_refl eq_refl Hnc) as (u' & db' & E & Eu & _).
  exists u', db'. subst u'. repeat split. exact E.
Defined.

End RequestPermission.

(** ** The cooldown between two requests *)

Section Cooldown.

Import Store NoteService Vocabulary.
Local Open Scope string_scope.
Local Open Scope Z_scope.

(** What a successful request tells of the store before and after. *)
Lemma requestEditPermission_ok_inv
      (now : Z) (db db' : Db) (noteId userId : string) (u' : NoteUser) :
  requestEditPermission now db noteId userId = Ok (u', db') ->
  noteId <> "" /\ userId <> ""
  /\ exists u : NoteUser,
      select_user db noteId userId = Some u
      /\ role u = guest /\ can_edit u = false
      /\ u' = set_requested now u
      /\ replaces noteId userId u' db db'
      /\ select_user db' noteId userId = Some u'.
Proof.
  unfold requestEditPermission, falsy.
  destruct (String.eqb_spec noteId "") as [|Hn]; [discriminate|].
  destruct (String.eqb_spec userId "") as [|Hu]; [discriminate|].
  destruct (select_user db noteId userId) as [u|] eqn:Hsel; [|discriminate].
  destruct (role u) eqn:Hr; simpl; [discriminate|].
  destruct (can_edit u) eqn:Hce; [discriminate|].
  destruct (cooldownCheck now u); [discriminate|].
  unfold select_user in Hsel.
  rewrite (update_user_single_found _ (set_requested now) db u Hsel).
  simpl. intros H. injection H as <- <-.
  repeat split; try assumption.
  exists u. repeat split; try assumption.
  destruct (select_user_key db noteId userId u Hsel) as (Hk1 & Hk2 & _).
  apply select_user_replaced with (u := u); [exact Hsel|].
  unfold key_is, set_requested. simpl.
  now rewrite Hk1, Hk2, !String.eqb_refl.
Qed.

(** Half a second after a first request the second one is thrown back
    with 30 seconds to wait, which is not less than 30. *)
Lemma second_request_after_half_second :
  exists (u : NoteUser) (db1 : Db),
    requestEditPermission 1000 Demo.session "n1" "g1" = Ok (u, db1)
    /\ requestEditPermission 1500 db1 "n1" "g1" = Err (Cooldown 30).
Proof. do 2 eexists. split; reflexivity. Qed.

(** C6, amended.  A second request made more than 0 and less than 30
    seconds after a successful first one is thrown back with a number of
    seconds that is the ceiling of 30 minus the elapsed seconds; it is
    at least 1 and at most 30, and less than 30 exactly when a whole
    second has elapsed. *)
Theorem second_request_cooldown
        (t0 t1 : Z) (db db1 : Db) (noteId userId : string) (u : NoteUser) :
  requestEditPermission t0 db noteId userId = Ok (u, db1) ->
  0 < t1 - t0 < 30 * 1000 ->
  exists remaining : Z,
    requestEditPermission t1 db1 noteId userId = Err (Cooldown remaining)
    /\ ceiling_of_thousandths (30 * 1000 - (t1 - t0)) remaining
    /\ 0 < remaining <= 30
    /\ (remaining < 30 <-> 1000 <= t1 - t0).
Proof.
  intros Hfirst Hel.
  destruct (requestEditPermission_ok_inv _ _ _ _ _ _ Hfirst)
    as (Hn & Hu & u0 & _ & Hr & Hce & -> & _ & Hsel).
  exists (remainingSeconds (elapsedSeconds t1 t0)).
  pose proof (remainingSeconds_is_ceiling t1 t0) as Hceil.
  split; [|split; [exact Hceil|unfold ceiling_of_thousandths in Hceil; lia]].
  unfold requestEditPermission.
  rewrite (falsy_false _ Hn), (falsy_false _ Hu), Hsel. simpl.
  rewrite Hr, Hce. simpl.
  destruct (cooldownCheck_cooling t1 (set_requested t0 u0))
    as (last & Hlast & ->).
  - split; [now left|]. exists t0. split; [reflexivity|lia].
  - simpl in Hlast. injection Hlast as <-. reflexivity.
Qed.

(** The second request of the demonstration guest, 10 seconds after the
    first, is told to wait 20 seconds. *)
Lemma second_request_cooldown_witness :
  exists remaining : Z,
    requestEditPermission 11000
      (set_note_users Demo.session
         [Demo.theHost; set_requested 1000 Demo.theGuest]) "n1" "g1"
    = Err (Cooldown remaining)
    /\ 0 < remaining <= 30.
Proof.
  destruct (second_request_cooldown 1000 11000 Demo.session
              (set_note_users Demo.session
                 [Demo.theHost; set_requested 1000 Demo.theGuest])
              "n1" "g1" (set_requested 1000 Demo.theGuest))
    as (remaining & E & _ & Hb & _).
  - reflexivity.
  - lia.
  - exists remaining. split; [exact E|exact Hb].
Defined.

End Cooldown.

(** ** The host's answer to a request *)

Section RespondToRequest.

Import Store NoteService Vocabulary.
Local Open Scope string_scope.

Lemma key_is_same_key (noteId userId : string) (u u' : NoteUser) :
  note_id u' = note_id u -> user_id u' = user_id u ->
  note_id u = noteId -> user_id u = userId ->
  key_is noteId userId u' = true.
Proof.
  intros E1 E2 E3 E4. unfold key_is.
  rewrite E1, E2, E3, E4. now rewrite !String.eqb_refl.
Qed.

(** The query for the host's record finds nothing where no record of the
    caller in the session has the role host. *)
Lemma select_host_without_host_record (db : Db) (noteId userId : string) :
  (forall u : NoteUser,
      In u (note_users db) ->
      note_id u = noteId -> user_id u = userId -> role u <> host) ->
  select_host db noteId userId = None.
Proof.
  intros Hno. unfold select_host.
  destruct (filter (fun u => key_is noteId userId u && role_eqb (role u) host)
                   (note_users db)) as [|h rest] eqn:E; [reflexivity|].
  exfalso.
  assert (Hin : In h (filter (fun u => key_is noteId userId u
                                       && role_eqb (role u) host)
                             (note_users db)))
    by (rewrite E; now left).
  apply filter_In in Hin as [Hin Hk].
  apply andb_true_iff in Hk as [Hk Hr]. unfold key_is in Hk.
  apply andb_true_iff in Hk as [Hn Hu].
  apply String.eqb_eq in Hn, Hu.
  apply (Hno h Hin Hn Hu). destruct (role h); [reflexivity|discriminate].
Qed.

(** C3.  [respondToEditRequest] on well-formed identifiers answers
    [HostOnly] whenever no record of the caller in the session has the
    role host, and any other answer means that the session holds a
    record of the caller with the role host (the record the query for
    the host returns).  Past that check it fails with [TargetNotFound]
    if the target has no record and with [NotRequested] unless the
    target's status is [requested]; from there, approving sets the
    target's edit flag and the status [granted], denying sets the status
    [denied] and keeps the edit flag; the updated record is returned and
    nothing else changes. *)
Theorem respondToEditRequest_outcomes
        (db : Db) (noteId targetUserId hostUserId : string) (approved : bool) :
  noteId <> "" -> targetUserId <> "" -> hostUserId <> "" ->
  let result :=
    respondToEditRequest db noteId targetUserId approved hostUserId in
  ((forall u : NoteUser,
       In u (note_users db) ->
       note_id u = noteId -> user_id u = hostUserId -> role u <> host) ->
   result = Err HostOnly)
  /\ (result <> Err HostOnly ->
      exists h : NoteUser,
        In h (note_users db)
        /\ note_id h = noteId /\ user_id h = hostUserId /\ role h = host)
  /\ (select_host db noteId hostUserId = None -> result = Err HostOnly)
  /\ (forall h : NoteUser,
         select_host db noteId hostUserId = Some h ->
         (role h = host /\ note_id h = noteId /\ user_id h = hostUserId
          /\ In h (note_users db))
         /\ (select_user db noteId targetUserId = None ->
             result = Err TargetNotFound)
         /\ (forall t : NoteUser,
                select_user db noteId targetUserId = Some t ->
                (permission_status t <> requested ->
                 result = Err NotRequested)
                /\ (permission_status t = requested ->
                    exists (t' : NoteUser) (db' : Db),
                      result = Ok (t', db')
                      /\ t' = mkNoteUser
                                (id t) (note_id t) (user_id t) (username t)
                                (role t) (joined_at t)
                                (if approved then true else can_edit t)
                                (if approved then granted else denied)
                                (permission_requested_at t)
                      /\ replaces noteId targetUserId t' db db'
                      /\ select_user db' noteId targetUserId = Some t'))).
Proof.
  intros Hn Ht Hh result. subst result. unfold respondToEditRequest.
  rewrite (falsy_false _ Hn), (falsy_false _ Ht), (falsy_false _ Hh).
  split; [|split; [|split]].
  - intros Hno.
    now rewrite (select_host_without_host_record db noteId hostUserId Hno).
  - destruct (select_host db noteId hostUserId) as [h|] eqn:Hsel.
    + intros _. exists h.
      destruct (select_host_is_host db noteId hostUserId h Hsel)
        as (Hr & Hk1 & Hk2 & Hin).
      auto.
    + intros Hne. now elim Hne.
  - intros ->. reflexivity.
  - intros h Hhost. rewrite Hhost.
    split; [exact (select_host_is_host db noteId hostUserId h Hhost)|].
    split.
    + intros ->. reflexivity.
    + intros t Hsel. rewrite Hsel. split.
      * intros Hst. destruct (permission_status t); try reflexivity.
        now elim Hst.
      * intros Hst. rewrite Hst. simpl.
        unfold select_user in Hsel.
        rewrite (update_user_single_found
                   _ (if approved then approve else deny) db t Hsel).
        simpl. do 2 eexists. split; [reflexivity|].
        destruct (select_user_key db noteId targetUserId t Hsel)
          as (Hk1 & Hk2 & _).
        split; [destruct approved; unfold approve, deny; now rewrite ?Hst|].
        split; [split; reflexivity|].
        apply select_user_replaced with (u := t); [exact Hsel|].
        destruct approved;
          now apply key_is_same_key with (u := t).
Qed.

(** The host of the demonstration session approves the guest's pending
    request; the guest, answering its own request, is refused. *)
Lemma respondToEditRequest_outcomes_witness :
  (exists (t' : NoteUser) (db' : Db),
      respondToEditRequest
        (set_note_users Demo.session
           [Demo.theHost; set_requested 1000 Demo.theGuest])
        "n1" "g1" true "h1" = Ok (t', db')
      /\ can_edit t' = true /\ permission_status t' = granted)
  /\ respondToEditRequest
       (set_note_users Demo.session
          [Demo.theHost; set_requested 1000 Demo.theGuest])
       "n1" "g1" true "g1" = Err HostOnly.
Proof.
  split.
  - destruct (respondToEditRequest_outcomes
                (set_note_users Demo.session
                   [Demo.theHost; set_requested 1000 Demo.theGuest])
                "n1" "g1" "h1" true) as (_ & _ & _ & H); try discriminate.
    destruct (H Demo.theHost eq_refl) as (_ & _ & Ht).
    destruct (Ht (set_requested 1000 Demo.theGuest) eq_refl) as [_ Hok].
    destruct (Hok eq_refl) as (t' & db' & E & Et & _).
    exists t', db'. subst t'. repeat split. exact E.
  - destruct (respondToEditRequest_outcomes
                (set_note_users Demo.session
                   [Demo.theHost; set_requested 1000 Demo.theGuest])
                "n1" "g1" "g1" true) as (H & _); try discriminate.
    apply H. intros u [<-|[<-|[]]] _ Hu; simpl in *; discriminate.
Defined.

End RespondToRequest.

(** ** The host's direct toggle *)

Section DirectToggle.

Import Store NoteService Vocabulary.
Local Open Scope string_scope.

(** Whatever [updateUserEditPermission] returns, it is the target's
    record with the edit flag set as asked and the permission status it
    had. *)
Lemma updateUserEditPermission_ok_inv
      (db db' : Db) (noteId targetUserId requesterId : string)
      (canEdit : bool) (t' : NoteUser) :
  updateUserEditPermission db noteId targetUserId canEdit requesterId
  = Ok (t', db') ->
  exists h t : NoteUser,
    select_host db noteId requesterId = Some h
    /\ select_user db noteId targetUserId = Some t
    /\ role t = guest
    /\ t' = set_can_edit canEdit t
    /\ can_edit t' = canEdit
    /\ permission_status t' = permission_status t
    /\ replaces noteId targetUserId t' db db'.
Proof.
  unfold updateUserEditPermission.
  destruct (falsy noteId); [discriminate|].
  destruct (falsy targetUserId); [discriminate|].
  destruct (falsy requesterId); [discriminate|].
  destruct (select_host db noteId requesterId) as [h|]; [|discriminate].
  destruct (select_user db noteId targetUserId) as [t|] eqn:Hsel;
    [|discriminate].
  destruct (role t) eqn:Hr; simpl; [discriminate|].
  unfold select_user in Hsel.
  rewrite (update_user_single_found _ (set_can_edit canEdit) db t Hsel).
  simpl. intros H. injection H as <- <-.
  exists h, t. repeat split; reflexivity || assumption.
Qed.

(** C4, at the failing input.  The host of the demonstration session
    enables editing for the guest, whose status is [none]: the edit flag
    becomes true and the stored status is still [none], not [granted]. *)
Lemma updateUserEditPermission_leaves_status :
  exists (t' : NoteUser) (db' : Db),
    updateUserEditPermission Demo.session "n1" "g1" true "h1" = Ok (t', db')
    /\ can_edit t' = true
    /\ permission_status t' = none
    /\ select_user db' "n1" "g1" = Some t'.
Proof. do 2 eexists. repeat split. Qed.

(** The other direction: editing is taken back from a guest whose request
    was approved; the stored status stays [granted], not [none]. *)
Lemma updateUserEditPermission_revoke_leaves_granted :
  exists (t' : NoteUser) (db' : Db),
    updateUserEditPermission
      (set_note_users Demo.session [Demo.theHost; approve Demo.theGuest])
      "n1" "g1" false "h1" = Ok (t', db')
    /\ can_edit t' = false
    /\ permission_status t' = granted.
Proof. do 2 eexists. repeat split. Qed.

End DirectToggle.

(** ** Expiry of old requests *)

Section Expiry.

Import Store NoteService Vocabulary.
Local Open Scope string_scope.
Local Open Scope Z_scope.

Lemma expired_iff (noteId : string) (now : Z) (u : NoteUser) :
  expired noteId (now - EXPIRY_HOURS * 60 * 60 * 1000) u = true
  <-> note_id u = noteId /\ stale now u.
Proof.
  unfold expired, stale, EXPIRY_HOURS. split.
  - intros H. apply andb_true_iff in H as [H Ht].
    apply andb_true_iff in H as [Hn Hs].
    apply String.eqb_eq in Hn. split; [exact Hn|]. split.
    + destruct (permission_status u); simpl in Hs;
        try discriminate; auto.
    + destruct (permission_requested_at u) as [t|]; [|discriminate].
      exists t. split; [reflexivity|]. now apply Z.ltb_lt.
  - intros (Hn & Hs & t & Ht & Hlt).
    rewrite Hn, String.eqb_refl, Ht.
    apply Z.ltb_lt in Hlt. rewrite Hlt.
    destruct Hs as [-> | ->]; reflexivity.
Qed.

(** What the pass does to one record. *)
Lemma cleanup_row (noteId : string) (now : Z) (u : NoteUser) :
  let u' := if expired noteId (now - EXPIRY_HOURS * 60 * 60 * 1000) u
            then reset_request u else u in
  (note_id u = noteId -> stale now u ->
   u' = mkNoteUser (id u) (note_id u) (user_id u) (username u) (role u)
                   (joined_at u) (can_edit u) none None)
  /\ (~ (note_id u = noteId /\ stale now u) -> u' = u).
Proof.
  cbv zeta.
  destruct (expired noteId (now - EXPIRY_HOURS * 60 * 60 * 1000) u) eqn:E.
  - apply expired_iff in E. split; [reflexivity|]. intros H. now elim H.
  - split; [|reflexivity]. intros Hn Hs.
    assert (expired noteId (now - EXPIRY_HOURS * 60 * 60 * 1000) u = true)
      by (apply expired_iff; auto).
    congruence.
Qed.

Lemma Forall2_map_self (A : Type) (R : A -> A -> Prop) (f : A -> A)
      (l : list A) :
  (forall a, R a (f a)) -> Forall2 R l (map f l).
Proof.
  intros H. induction l as [|a l IH]; simpl; constructor; auto.
Qed.

(** C7.  [cleanupExpiredRequests] never throws.  When the store accepts
    the update, every record of the session whose status is [requested]
    or [denied] and whose request is more than 24 hours old gets the
    status [none] and no request time, its other fields kept; a record
    whose status is [granted] or [none], or whose request is not older
    than 24 hours, and every other record, is left as it was.  When the
    store answers with an error it is logged and nothing changes. *)
Theorem cleanupExpiredRequests_resets_stale
        (failure : option PgError) (now : Z) (db : Db) (noteId : string) :
  exists (logged : list PgError) (db' : Db),
    cleanupExpiredRequests failure now db noteId = Ok (logged, db')
    /\ notes db' = notes db
    /\ (failure = None ->
        logged = []
        /\ Forall2
             (fun u u' : NoteUser =>
                (noteId <> "" -> note_id u = noteId -> stale now u ->
                 u' = mkNoteUser (id u) (note_id u) (user_id u) (username u)
                                 (role u) (joined_at u) (can_edit u)
                                 none None)
                /\ (permission_status u = granted
                    \/ permission_status u = none -> u' = u)
                /\ (forall t : Z,
                       permission_requested_at u = Some t ->
                       now - 24 * 60 * 60 * 1000 <= t -> u' = u)
                /\ (~ (note_id u = noteId /\ stale now u) -> u' = u))
             (note_users db) (note_users db'))
    /\ (forall e : PgError,
           failure = Some e ->
           db' = db /\ (noteId <> "" -> logged = [e])).
Proof.
  unfold cleanupExpiredRequests, falsy.
  destruct (String.eqb_spec noteId "") as [Hn|Hn].
  - exists [], db. repeat split; try discriminate.
    + rewrite <- (map_id (note_users db)) at 2.
      apply Forall2_map_self. intros u. repeat split; auto. contradiction.
    + contradiction.
  - destruct failure as [e|].
    + exists [e], db. repeat split; try discriminate.
      intros _. congruence.
    + eexists [], _. split; [reflexivity|].
      split; [reflexivity|]. split; [|discriminate].
      intros _. split; [reflexivity|]. simpl. unfold update_where.
      apply Forall2_map_self. intros u.
      destruct (cleanup_row noteId now u) as [Hreset Hkeep].
      cbv zeta in Hreset, Hkeep.
      split; [auto|]. split; [|split; [|exact Hkeep]].
      * intros Hs. apply Hkeep. intros (_ & [Hr|Hd] & _);
          destruct Hs; congruence.
      * intros t Ht Hle. apply Hkeep.
        intros (_ & _ & t' & Ht' & Hlt). rewrite Ht in Ht'.
        injection Ht' as <-. lia.
Qed.

(** A two-day-old denied request is reset; the host's record is not
    touched. *)
Lemma cleanupExpiredRequests_resets_stale_witness :
  exists logged : list PgError,
    cleanupExpiredRequests None (3 * 24 * 60 * 60 * 1000)
      (set_note_users Demo.session
         [Demo.theHost;
          deny (set_requested (24 * 60 * 60 * 1000) Demo.theGuest)])
      "n1"
    = Ok (logged, Demo.session).
Proof.
  destruct (cleanupExpiredRequests_resets_stale None (3 * 24 * 60 * 60 * 1000)
              (set_note_users Demo.session
                 [Demo.theHost;
                  deny (set_requested (24 * 60 * 60 * 1000) Demo.theGuest)])
              "n1") as (logged & db' & E & _).
  exists logged. rewrite E. vm_compute in E.
  injection E as _ <-. reflexivity.
Defined.

End Expiry.

(** ** Joining a session *)

Section Join.

Import Store NoteService Vocabulary.
Local Open Scope string_scope.

Lemma filter_none (A : Type) (p : A -> bool) (rows : list A) :
  (forall r, In r rows -> p r = false) -> filter p rows = [].
Proof.
  induction rows as [|a rows IH]; simpl; intros H; [reflexivity|].
  rewrite (H a (or_introl eq_refl)). apply IH. intros r Hr. apply H. now right.
Qed.

(** Under the primary key, an [id] selects its row and no other. *)
Lemma filter_by_id (rows : list NoteUser) (e : NoteUser) :
  NoDup (map id rows) -> In e rows ->
  filter (fun u => (id u =? id e)%string) rows = [e].
Proof.
  induction rows as [|a rows IH]; simpl; intros Hnd Hin; [contradiction|].
  inversion Hnd as [|x l Hnotin Hnd']; subst.
  destruct (String.eqb_spec (id a) (id e)) as [Heq|Hne].
  - assert (a = e) as ->.
    { destruct Hin as [|Hin]; [assumption|].
      elim Hnotin. rewrite Heq. now apply in_map. }
    f_equal. apply filter_none. intros r Hr.
    apply String.eqb_neq. intros Hid. apply Hnotin.
    rewrite <- Hid. now apply in_map.
  - destruct Hin as [->|Hin]; [now elim Hne|]. now apply IH.
Qed.

Lemma id_selects_key (db : Db) (noteId userId : string) (e v : NoteUser) :
  ids_unique db -> select_user db noteId userId = Some e ->
  In v (note_users db) ->
  (id v =? id e)%string = key_is noteId userId v.
Proof.
  intros Hnd Hsel Hv.
  destruct (select_user_key db noteId userId e Hsel) as (Hk1 & Hk2 & He).
  unfold select_user in Hsel. apply single_some in Hsel.
  pose proof (filter_by_id _ e Hnd He) as Hid.
  destruct (key_is noteId userId v) eqn:Hk.
  - assert (In v (filter (key_is noteId userId) (note_users db)))
      by (apply filter_In; auto).
    rewrite Hsel in H. destruct H as [<-|[]]. apply String.eqb_refl.
  - destruct (String.eqb_spec (id v) (id e)) as [Heq|]; [|reflexivity].
    assert (Hin : In v (filter (fun u => (id u =? id e)%string)
                               (note_users db)))
      by (apply filter_In; split; [assumption|now apply String.eqb_eq]).
    rewrite Hid in Hin. destruct Hin as [<-|[]].
    unfold key_is in Hk. now rewrite Hk1, Hk2, !String.eqb_refl in Hk.
Qed.

(** C8.  [joinNote] on well-formed identifiers.  When the session has no
    record of the participant and the store accepts the new row, one is
    appended: a guest's with the edit flag off and the status [none], a
    host's with the edit flag on and the status [granted].  When there is
    a record, it alone is updated, in name, role and join time, its edit
    flag, status and request time kept; no row is added and the key
    still reads one record. *)
Theorem joinNote_upsert
        (rowId : string) (now : Z) (db : Db)
        (noteId userId name : string) (r : UserRole) :
  noteId <> "" -> userId <> "" ->
  let result := joinNote rowId now db noteId userId name r in
  (filter (key_is noteId userId) (note_users db) = [] ->
   ~ In rowId (map id (note_users db)) ->
   In noteId (map nid (notes db)) ->
   exists (u : NoteUser) (db' : Db),
     result = Ok (u, db')
     /\ u = mkNoteUser rowId noteId userId name r now
                       (match r with host => true | guest => false end)
                       (match r with host => granted | guest => none end)
                       None
     /\ notes db' = notes db
     /\ note_users db' = (note_users db ++ [u])%list
     /\ select_user db' noteId userId = Some u)
  /\ (forall e : NoteUser,
         select_user db noteId userId = Some e ->
         ids_unique db ->
         exists (u' : NoteUser) (db' : Db),
           result = Ok (u', db')
           /\ u' = mkNoteUser (id e) (note_id e) (user_id e) name r now
                              (can_edit e) (permission_status e)
                              (permission_requested_at e)
           /\ replaces noteId userId u' db db'
           /\ select_user db' noteId userId = Some u'
           /\ List.length (note_users db') = List.length (note_users db)).
Proof.
  intros Hn Hu result. subst result. unfold joinNote.
  rewrite (falsy_false _ Hn), (falsy_false _ Hu). split.
  - intros Hnone Hfresh Hnote. unfold select_user. rewrite Hnone. simpl.
    unfold insert_user.
    assert (Hpk : existsb (fun v => (id v =? rowId)%string) (note_users db)
                  = false).
    { destruct (existsb _ _) eqn:E; [|reflexivity].
      apply existsb_exists in E as (v & Hv & Hid).
      apply String.eqb_eq in Hid. elim Hfresh. rewrite <- Hid.
      now apply in_map. }
    assert (Hfk : existsb (fun n => (nid n =? noteId)%string) (notes db)
                  = true).
    { apply in_map_iff in Hnote as (n & Hid & Hin).
      apply existsb_exists. exists n. split; [exact Hin|].
      now apply String.eqb_eq. }
    simpl. rewrite Hpk, Hfk. simpl.
    do 2 eexists. split; [reflexivity|].
    split; [destruct r; reflexivity|].
    split; [reflexivity|]. split; [reflexivity|].
    simpl. rewrite filter_app, Hnone. simpl.
    unfold key_is at 1. simpl. now rewrite !String.eqb_refl.
  - intros e Hsel Hnd. rewrite Hsel.
    destruct (select_user_key db noteId userId e Hsel) as (Hk1 & Hk2 & He).
    assert (Hone : single (filter (fun u => (id u =? id e)%string)
                                  (note_users db)) = Some e)
      by (rewrite (filter_by_id _ e Hnd He); reflexivity).
    rewrite (update_user_single_found _ (rejoin name r now) db e Hone).
    simpl.
    assert (Hmap :
              map (fun v => if (id v =? id e)%string
                            then rejoin name r now e else v) (note_users db)
              = map (fun v => if key_is noteId userId v
                              then rejoin name r now e else v)
                    (note_users db)).
    { apply map_ext_in. intros v Hv.
      now rewrite (id_selects_key db noteId userId e v Hnd Hsel Hv). }
    rewrite Hmap.
    do 2 eexists. split; [reflexivity|]. split; [reflexivity|].
    split; [split; reflexivity|]. split.
    + apply select_user_replaced with (u := e); [exact Hsel|].
      now apply key_is_same_key with (u := e).
    + simpl. apply length_map.
Qed.

(** A newcomer joins the demonstration session as a guest. *)
Lemma joinNote_upsert_witness :
  exists (u : NoteUser) (db' : Db),
    joinNote "r3" 7 Demo.session "n1" "g2" "ann" guest = Ok (u, db')
    /\ can_edit u = false /\ permission_status u = none
    /\ List.length (note_users db') = 3%nat.
Proof.
  destruct (joinNote_upsert "r3" 7 Demo.session "n1" "g2" "ann" guest)
    as [Hnew _]; try discriminate.
  destruct Hnew as (u & db' & E & Eu & _ & Eus & _).
  - reflexivity.
  - simpl. intros [H|[H|[]]]; discriminate.
  - simpl. now left.
  - exists u, db'. rewrite Eus. subst u. repeat split. exact E.
Defined.

Lemma map_id_update_where (p : NoteUser -> bool)
      (patch : NoteUser -> NoteUser) (rows : list NoteUser) :
  (forall v, id (patch v) = id v) ->
  map id (update_where p patch rows) = map id rows.
Proof.
  intros H. unfold update_where. rewrite map_map. apply map_ext.
  intros v. destruct (p v); auto.
Qed.

(** The primary key holds after [joinNote]. *)
Lemma joinNote_keeps_ids_unique
      (rowId : string) (now : Z) (db db' : Db)
      (noteId userId name : string) (r : UserRole) (u : NoteUser) :
  ids_unique db ->
  joinNote rowId now db noteId userId name r = Ok (u, db') ->
  ids_unique db'.
Proof.
  unfold ids_unique, joinNote. intros Hnd.
  destruct (falsy noteId); [discriminate|].
  destruct (falsy userId); [discriminate|].
  destruct (select_user db noteId userId) as [e|].
  - unfold update_user_single.
    destruct (single _); [|discriminate].
    simpl. intros H. injection H as _ <-. simpl.
    now rewrite map_id_update_where.
  - unfold insert_user. simpl.
    destruct (existsb _ (note_users db)) eqn:Hpk; [discriminate|].
    destruct (negb _); [discriminate|].
    simpl. intros H. injection H as _ <-. simpl.
    rewrite map_app. simpl. apply NoDup_app; [exact Hnd| |].
    + constructor; [intros []|constructor].
    + intros a Ha [<-|[]].
      apply in_map_iff in Ha as (v & Hid & Hv).
      assert (existsb (fun v => (id v =? rowId)%string) (note_users db)
              = true)
        by (apply existsb_exists; exists v; split;
            [exact Hv|now apply String.eqb_eq]).
      congruence.
Qed.

(** X27.  [joinNote] never gives a participant a second record in a
    session. *)
Lemma joinNote_keeps_one_record_each
      (rowId : string) (now : Z) (db db' : Db)
      (noteId userId name : string) (r : UserRole) (u : NoteUser) :
  one_record_each db ->
  joinNote rowId now db noteId userId name r = Ok (u, db') ->
  one_record_each db'.
Proof.
  unfold one_record_each, joinNote. intros Hone.
  destruct (falsy noteId); [discriminate|].
  destruct (falsy userId); [discriminate|].
  destruct (select_user db noteId userId) as [e|] eqn:Hsel.
  - unfold update_user_single.
    destruct (single _); [|discriminate].
    simpl. intros H. injection H as _ <-. intros n' u'. simpl.
    rewrite filter_other_update_where by reflexivity.
    unfold update_where. rewrite length_map. apply Hone.
  - unfold insert_user. simpl.
    destruct (existsb _ (note_users db)); [discriminate|].
    destruct (negb _); [discriminate|].
    simpl. intros H. injection H as _ <-. intros n' u'. simpl.
    rewrite filter_app, length_app. simpl.
    destruct (key_is n' u' _) eqn:Hk; simpl; [|pose proof (Hone n' u'); lia].
    unfold key_is in Hk. simpl in Hk.
    apply andb_true_iff in Hk as [Hk1 Hk2].
    apply String.eqb_eq in Hk1, Hk2. subst n' u'.
    unfold select_user in Hsel. pose proof (Hone noteId userId) as Hle.
    destruct (filter (key_is noteId userId) (note_users db)) as [|a [|b l]];
      simpl in *; [lia|discriminate|lia].
Qed.

End Join.

(** ** The host's record *)

Section HostRecord.

Import Store NoteService Vocabulary.
Local Open Scope string_scope.
Local Open Scope Z_scope.

(** C1, at the failing input.  [createNote] on the empty store: the
    host's record is written with the edit flag on and, the status not
    being named in the insertion, with the column's default [none]; it
    is not [granted]. *)
Lemma createNote_host_status_is_none :
  exists (n : Note) (db' : Db) (h : NoteUser),
    createNote (fun _ => "ABC234") (fun _ => "n1") "h1" "r1" 0 emptyDb
               "minutes" "1234" "5678"
    = Ok (n, "h1", db')
    /\ select_host db' (nid n) "h1" = Some h
    /\ can_edit h = true
    /\ permission_status h = none.
Proof. do 3 eexists. repeat split. Qed.

(** A participant who joined as a guest and joins again as the host keeps
    the guest's edit flag and status under the role host. *)
Lemma rejoin_as_host_keeps_guest_fields :
  exists (h : NoteUser) (db' : Db),
    joinNote "r9" 9 Demo.session "n1" "g1" "guest" host = Ok (h, db')
    /\ select_host db' "n1" "g1" = Some h
    /\ can_edit h = false
    /\ permission_status h = none.
Proof. do 2 eexists. repeat split. Qed.

(** A host's record made by [joinNote] has the edit flag on and the
    status [granted]. *)
Lemma newParticipant_host (rowId noteId userId name : string) (now : Z) :
  can_edit (newParticipant rowId noteId userId name host now) = true
  /\ permission_status (newParticipant rowId noteId userId name host now)
     = granted.
Proof. split; reflexivity. Qed.

Lemma hosts_intact_map (db : Db) (g : NoteUser -> NoteUser) :
  hosts_intact db ->
  (forall v : NoteUser,
      In v (note_users db) -> role (g v) = host ->
      can_edit (g v) = true /\ permission_status (g v) = granted) ->
  hosts_intact (set_note_users db (map g (note_users db))).
Proof.
  intros _ Hg h Hin Hr. simpl in Hin.
  apply in_map_iff in Hin as (v & <- & Hv). now apply Hg.
Qed.

Lemma hosts_intact_replaces (noteId userId : string) (u' : NoteUser)
      (db db' : Db) :
  hosts_intact db -> replaces noteId userId u' db db' ->
  (role u' = host -> can_edit u' = true /\ permission_status u' = granted) ->
  hosts_intact db'.
Proof.
  intros Hdb [_ Hus] Hu' h Hin Hr. rewrite Hus in Hin.
  apply in_map_iff in Hin as (v & Hh & Hv).
  destruct (key_is noteId userId v); subst h; auto.
Qed.

Lemma respondToEditRequest_ok_inv
      (db db' : Db) (noteId targetUserId hostUserId : string)
      (approved : bool) (t' : NoteUser) :
  respondToEditRequest db noteId targetUserId approved hostUserId
  = Ok (t', db') ->
  exists t : NoteUser,
    select_user db noteId targetUserId = Some t
    /\ permission_status t = requested
    /\ t' = (if approved then approve t else deny t)
    /\ replaces noteId targetUserId t' db db'.
Proof.
  unfold respondToEditRequest.
  destruct (falsy noteId); [discriminate|].
  destruct (falsy targetUserId); [discriminate|].
  destruct (falsy hostUserId); [discriminate|].
  destruct (select_host db noteId hostUserId) as [h|]; [|discriminate].
  destruct (select_user db noteId targetUserId) as [t|] eqn:Hsel;
    [|discriminate].
  destruct (permission_status t) eqn:Hst; simpl; try discriminate.
  unfold select_user in Hsel.
  rewrite (update_user_single_found
             _ (if approved then approve else deny) db t Hsel).
  simpl. intros H. injection H as <- <-.
  exists t. repeat split; try assumption.
  now destruct approved.
Qed.

(** X26.  The four operations of the permission arbiter keep every
    host's record able to edit and [granted], when it was so before. *)
Lemma arbiter_keeps_hosts_intact (db : Db) :
  hosts_intact db ->
  (forall (now : Z) (noteId userId : string) (u' : NoteUser) (db' : Db),
      requestEditPermission now db noteId userId = Ok (u', db') ->
      hosts_intact db')
  /\ (forall (noteId targetUserId hostUserId : string) (approved : bool)
             (t' : NoteUser) (db' : Db),
         respondToEditRequest db noteId targetUserId approved hostUserId
         = Ok (t', db') ->
         hosts_intact db')
  /\ (forall (noteId targetUserId requesterId : string) (canEdit : bool)
             (t' : NoteUser) (db' : Db),
         updateUserEditPermission db noteId targetUserId canEdit requesterId
         = Ok (t', db') ->
         hosts_intact db')
  /\ (forall (failure : option PgError) (now : Z) (noteId : string)
             (logged : list PgError) (db' : Db),
         cleanupExpiredRequests failure now db noteId = Ok (logged, db') ->
         hosts_intact db').
Proof.
  intros Hdb. split; [|split; [|split]].
  - intros now noteId userId u' db' H.
    destruct (requestEditPermission_ok_inv _ _ _ _ _ _ H)
      as (_ & _ & u & _ & Hr & _ & -> & Hrep & _).
    apply (hosts_intact_replaces _ _ _ _ _ Hdb Hrep).
    simpl. rewrite Hr. discriminate.
  - intros noteId targetUserId hostUserId approved t' db' H.
    destruct (respondToEditRequest_ok_inv _ _ _ _ _ _ _ H)
      as (t & Hsel & Hst & -> & Hrep).
    apply (hosts_intact_replaces _ _ _ _ _ Hdb Hrep).
    destruct (select_user_key _ _ _ _ Hsel) as (_ & _ & Hin).
    intros Hr.
    assert (Hrt : role t = host) by (destruct approved; exact Hr).
    destruct (Hdb t Hin Hrt) as [_ Hg]. congruence.
  - intros noteId targetUserId requesterId canEdit t' db' H.
    destruct (updateUserEditPermission_ok_inv _ _ _ _ _ _ _ H)
      as (h & t & _ & _ & Hr & -> & _ & _ & Hrep).
    apply (hosts_intact_replaces _ _ _ _ _ Hdb Hrep).
    simpl. rewrite Hr. discriminate.
  - intros failure now noteId logged db'. unfold cleanupExpiredRequests.
    destruct (falsy noteId); [intros H; injection H as _ <-; exact Hdb|].
    destruct failure; intros H; injection H as _ <-; [exact Hdb|].
    apply hosts_intact_map; [exact Hdb|]. intros v Hin.
    destruct (expired noteId _ v) eqn:E; [|now apply Hdb].
    simpl. intros Hr. destruct (Hdb v Hin Hr) as [_ Hg].
    unfold expired in E. rewrite Hg in E. simpl in E.
    now rewrite andb_false_r in E.
Qed.

End HostRecord.

(** ** The lock *)

Section Lock.

Import Store NoteService NoteLock Vocabulary.
Local Open Scope string_scope.

Lemma update_note_single_found (p : Note -> bool) (patch : Note -> Note)
      (db : Db) (n : Note) :
  single (filter p (notes db)) = Some n ->
  update_note_single p patch db
  = inr (patch n,
         set_notes db (map (fun m => if p m then patch n else m) (notes db))).
Proof.
  intros H. apply single_some in H. unfold update_note_single.
  rewrite (update_where_only _ p patch _ _ H), H. reflexivity.
Qed.

(** While "a1" holds the lock, the host "b1" asks for it: the call
    succeeds and the store now names "b1" as the holder. *)
Lemma requestLock_overrides_holder :
  exists db' : Db,
    requestLock "n1" "b1" host 5 (mkLockState true (Some "a1") None)
                (Demo.lockedSession "a1")
    = (true, mkLockState true (Some "b1") None, db')
    /\ map locked_by (notes db') = [Some "b1"].
Proof. eexists. split; reflexivity. Qed.

(** C5, amended.  On an existing session a host's [requestLock] always
    succeeds.  When the caller's view already shows the caller as the
    holder nothing is written; otherwise the session's row is written
    with the lock set and the caller as the holder, whoever held it
    before.  A guest's call fails.  Whenever the call fails, the store
    and the caller's view of the lock are as before. *)
Theorem requestLock_outcomes
        (noteId userId : string) (r : UserRole) (now : Z)
        (st : LockState) (db : Db) :
  (r = host -> noteId <> "" ->
   forall n : Note,
     single (filter (fun m => (nid m =? noteId)%string) (notes db)) = Some n ->
     exists (st' : LockState) (db' : Db),
       requestLock noteId userId r now st db = (true, st', db')
       /\ isLocked st' = true /\ lockedBy st' = Some userId
       /\ (isLocked st = true /\ lockedBy st = Some userId ->
           st' = st /\ db' = db)
       /\ (~ (isLocked st = true /\ lockedBy st = Some userId) ->
           note_users db' = note_users db
           /\ notes db'
              = map (fun m => if (nid m =? noteId)%string
                              then locked_for userId now n else m)
                    (notes db)))
  /\ (r = guest ->
      requestLock noteId userId r now st db
      = (false, mkLockState (isLocked st) (lockedBy st)
                            (Some GuestCannotLock), db))
  /\ (forall (st' : LockState) (db' : Db),
         requestLock noteId userId r now st db = (false, st', db') ->
         db' = db /\ isLocked st' = isLocked st /\ lockedBy st' = lockedBy st).
Proof.
  split; [|split].
  - intros -> Hn n Hsel. unfold requestLock. simpl.
    destruct (isLocked st && holder_is (lockedBy st) userId) eqn:Hheld.
    + apply andb_true_iff in Hheld as [Hl Hh].
      assert (Hby : lockedBy st = Some userId).
      { unfold holder_is in Hh. destruct (lockedBy st) as [h|];
          [|discriminate]. apply String.eqb_eq in Hh. now subst. }
      exists st, db. split; [reflexivity|]. split; [exact Hl|].
      split; [exact Hby|]. split; [auto|].
      intros Hnot. elim Hnot. auto.
    + unfold setNoteLock. rewrite (falsy_false _ Hn).
      rewrite (update_note_single_found _ _ db n Hsel). simpl.
      do 2 eexists. split; [reflexivity|].
      split; [reflexivity|]. split; [reflexivity|]. split.
      * intros [Hl Hby]. rewrite Hl, Hby in Hheld. simpl in Hheld.
        now rewrite String.eqb_refl in Hheld.
      * intros _. split; reflexivity.
  - intros ->. reflexivity.
  - intros st' db'. unfold requestLock.
    destruct (negb (role_eqb r host)).
    + intros H. injection H as <- <-. auto.
    + destruct (isLocked st && holder_is (lockedBy st) userId);
        [discriminate|].
      destruct (setNoteLock now db noteId true (Some userId)) as [[m d]|e];
        [discriminate|].
      intros H. injection H as <- <-. auto.
Qed.

(** The host "h1" takes the free lock of the demonstration session. *)
Lemma requestLock_outcomes_witness :
  exists (st' : LockState) (db' : Db),
    requestLock "n1" "h1" host 5 (mkLockState false None None) Demo.session
    = (true, st', db')
    /\ lockedBy st' = Some "h1".
Proof.
  destruct (requestLock_outcomes "n1" "h1" host 5
              (mkLockState false None None) Demo.session) as [H _].
  destruct (H eq_refl ltac:(discriminate) Demo.theNote eq_refl)
    as (st' & db' & E & _ & Hby & _).
  exists st', db'. split; assumption.
Defined.

End Lock.

(** ** Falling back to polling *)

Section Polling.

Import Store RealtimeNote Vocabulary.
Local Open Scope Z_scope.

Variable Content : Type.
Variable stringify : Content -> string.





(** Every instant is followed, within one period, by a firing of the
    timer. *)
Lemma firing_within_period (t : Timer) (instant : Z) :
  0 < interval t -> started t <= instant ->
  exists k : nat, instant < firing t k <= instant + interval t.
Proof.
  intros Hpos Hle. unfold firing.
  exists (Z.to_nat ((instant - started t) / interval t)).
  pose proof (Z.div_pos (instant - started t) (interval t)
                        ltac:(lia) Hpos) as Hq.
  rewrite Z2Nat.id by exact Hq.
  pose proof (Z.div_mod (instant - started t) (interval t) ltac:(lia)) as Hd.
  pose proof (Z.mod_pos_bound (instant - started t) (interval t) Hpos) as Hm.
  nia.
Qed.

(** The firings the definition lists are the firings of the timer that
    fall after [from] and not after [to]. *)
Lemma firingsBetween_spec (t : Timer) (from to x : Z) :
  0 < interval t ->
  In x (firingsBetween t from to)
  <-> exists k : nat, x = firing t k /\ from < x <= to.
Proof.
  intros Hpos. unfold firingsBetween, firedBy, firing.
  rewrite in_map_iff.
  pose proof (Z.div_mod (from - started t) (interval t) ltac:(lia)) as Hd1.
  pose proof (Z.mod_pos_bound (from - started t) (interval t) Hpos) as Hm1.
  pose proof (Z.div_mod (to - started t) (interval t) ltac:(lia)) as Hd2.
  pose proof (Z.mod_pos_bound (to - started t) (interval t) Hpos) as Hm2.
  set (q1 := (from - started t) / interval t) in *.
  set (q2 := (to - started t) / interval t) in *.
  split.
  - intros (k & <- & Hin). apply in_seq in Hin. exists k.
    split; [reflexivity|].
    assert (q1 <= Z.of_nat k) by lia.
    assert (Z.of_nat k + 1 <= q2) by lia.
    nia.
  - intros (k & -> & Hlt & Hle). exists k. split; [reflexivity|].
    apply in_seq.
    assert (q1 < Z.of_nat k + 1) by nia.
    assert (Z.of_nat k + 1 <= q2) by nia.
    lia.
Qed.

(** A poll changes neither the timer nor the counter nor the mark of a
    local change. *)
Lemma fetchNoteContent_keeps (fetched : PgError + option Content)
      (a : Agent Content) :
  pollingTimer (fetchNoteContent stringify fetched a) = pollingTimer a
  /\ reconnectAttempts (fetchNoteContent stringify fetched a)
     = reconnectAttempts a
  /\ isLocalChange (fetchNoteContent stringify fetched a) = isLocalChange a.
Proof.
  unfold fetchNoteContent. destruct fetched as [e|c]; [auto|].
  destruct (negb (isLocalChange a)
            && negb (isContentJsonEqual stringify c (contentJson a)));
    simpl; auto.
Qed.

Lemma polls_keep (fetchAt : Z -> PgError + option Content)
      (instants : list Z) (a : Agent Content) :
  let a' := fold_left (fun b instant =>
                         fetchNoteContent stringify (fetchAt instant) b)
                      instants a in
  pollingTimer a' = pollingTimer a
  /\ reconnectAttempts a' = reconnectAttempts a
  /\ isLocalChange a' = isLocalChange a.
Proof.
  revert a. induction instants as [|x rest IH]; intros a; simpl; [auto|].
  destruct (IH (fetchNoteContent stringify (fetchAt x) a)) as (P & N & L).
  destruct (fetchNoteContent_keeps (fetchAt x) a) as (P' & N' & L').
  simpl in P, N, L. rewrite P, N, L. auto.
Qed.

Lemma elapse_keeps (fetchAt : Z -> PgError + option Content)
      (from to : Z) (a : Agent Content) :
  pollingTimer (elapse stringify fetchAt from to a) = pollingTimer a
  /\ reconnectAttempts (elapse stringify fetchAt from to a)
     = reconnectAttempts a
  /\ isLocalChange (elapse stringify fetchAt from to a) = isLocalChange a.
Proof.
  unfold elapse. destruct (pollingTimer a) as [t|] eqn:E; [|auto].
  destruct (polls_keep fetchAt (firingsBetween t from to) a) as (P & N & L).
  simpl in P, N, L. rewrite P, N, L. auto.
Qed.



(** What the polls in between do is invisible to the counter and the
    timer: over the same reports, [live] and [run] leave the same. *)
Lemma live_counts_as_run (fetchAt : Z -> PgError + option Content)
      (events : list (Z * SubscribeStatus)) :
  forall (from : Z) (a b : Agent Content),
    pollingTimer a = pollingTimer b ->
    reconnectAttempts a = reconnectAttempts b ->
    pollingTimer (live stringify fetchAt from events a)
    = pollingTimer (run events b)
    /\ reconnectAttempts (live stringify fetchAt from events a)
       = reconnectAttempts (run events b).
Proof.
  induction events as [|[now status] rest IH]; intros from a b Hp Hn;
    simpl; [auto|].
  destruct (elapse_keeps fetchAt from now a) as (Pe & Ne & _).
  apply IH.
  - destruct status; simpl; rewrite ?Ne, ?Hn; try reflexivity;
      try (now rewrite Pe, Hp);
      destruct (reconnectAttempts b <? MAX_RECONNECT_ATTEMPTS)%nat; simpl;
      try reflexivity; now rewrite Pe, Hp.
  - destruct status; simpl; rewrite ?Ne, ?Hn; try reflexivity;
      destruct (reconnectAttempts b <? MAX_RECONNECT_ATTEMPTS)%nat; simpl;
      try reflexivity; now rewrite ?Ne, ?Hn.
Qed.



End Polling.

Section PollingWitness.

Import Store RealtimeNote Vocabulary.
Local Open Scope string_scope.
Local Open Scope Z_scope.


(** Why the agent must be left alone: a fifth timeout at 6999 sets the
    timer anew, the firing due at 7000 never happens, and the change the
    store made at 4000 reaches the agent at 9999 only. *)
Lemma fifth_failure_postpones_poll :
  pollingTimer
    (live (fun s => s) (Demo.changingAt 4000) 0
          [(1000, TIMED_OUT); (2000, TIMED_OUT); (3000, TIMED_OUT);
           (4000, TIMED_OUT); (6999, TIMED_OUT)] (mount (Some "old")))
  = Some (mkTimer 6999 3000)
  /\ contentJson
       (elapse (fun s => s) (Demo.changingAt 4000) 6999 7000
          (live (fun s => s) (Demo.changingAt 4000) 0
                [(1000, TIMED_OUT); (2000, TIMED_OUT); (3000, TIMED_OUT);
                 (4000, TIMED_OUT); (6999, TIMED_OUT)] (mount (Some "old"))))
     = Some "old"
  /\ contentJson
       (elapse (fun s => s) (Demo.changingAt 4000) 6999 9998
          (live (fun s => s) (Demo.changingAt 4000) 0
                [(1000, TIMED_OUT); (2000, TIMED_OUT); (3000, TIMED_OUT);
                 (4000, TIMED_OUT); (6999, TIMED_OUT)] (mount (Some "old"))))
     = Some "old"
  /\ contentJson
       (elapse (fun s => s) (Demo.changingAt 4000) 6999 9999
          (live (fun s => s) (Demo.changingAt 4000) 0
                [(1000, TIMED_OUT); (2000, TIMED_OUT); (3000, TIMED_OUT);
                 (4000, TIMED_OUT); (6999, TIMED_OUT)] (mount (Some "old"))))
     = Some "new".
Proof. repeat split; vm_compute; reflexivity. Qed.

End PollingWitness.

(* ===================================================================== *)
(** * Further properties of the code *)
(* ===================================================================== *)

(** ** Note codes *)

Section NoteCodes.

Import Store NoteService NoteContent Terms.
Local Open Scope string_scope.

Lemma get_in (s : string) (n : nat) (c : Ascii.ascii) :
  String.get n s = Some c -> In c (list_ascii_of_string s).
Proof.
  revert n. induction s as [|a s IH]; intros n; simpl; [discriminate|].
  destruct n as [|n]; [intros H; injection H as ->; now left|].
  intros H. right. exact (IH n H).
Qed.

Lemma get_some (s : string) (n : nat) :
  (n < String.length s)%nat -> exists c, String.get n s = Some c.
Proof.
  revert n. induction s as [|a s IH]; intros n; simpl; [lia|].
  destruct n as [|n]; [eauto|]. intros H. apply IH. lia.
Qed.

Lemma length_app_string (a b : string) :
  String.length (a ++ b) = (String.length a + String.length b)%nat.
Proof. induction a as [|c a IH]; simpl; [reflexivity|now rewrite IH]. Qed.

Lemma list_ascii_app (a b : string) :
  list_ascii_of_string (a ++ b)
  = (list_ascii_of_string a ++ list_ascii_of_string b)%list.
Proof. induction a as [|c a IH]; simpl; [reflexivity|now rewrite IH]. Qed.

Lemma randomIndex_range (r : Q) :
  (0 <= r)%Q -> (r < 1)%Q -> (0 <= randomIndex r < 32)%Z.
Proof.
  intros H0 H1. unfold randomIndex.
  change (inject_Z (Z.of_nat (String.length chars))) with (inject_Z 32).
  split.
  - change 0%Z with (Qfloor (inject_Z 0)). apply Qfloor_resp_le.
    change (inject_Z 0) with (0 * inject_Z 32)%Q.
    apply Qmult_le_compat_r; [exact H0|discriminate].
  - rewrite Zlt_Qlt.
    apply Qle_lt_trans with (y := (r * inject_Z 32)%Q); [apply Qfloor_le|].
    change (inject_Z 32) with (1 * inject_Z 32)%Q at 2.
    apply Qmult_lt_compat_r; [reflexivity|exact H1].
Qed.

Lemma charAt_chars (i : Z) :
  (0 <= i < 32)%Z ->
  exists c : Ascii.ascii,
    charAt chars i = String c "" /\ In c (list_ascii_of_string chars).
Proof.
  intros Hi. unfold charAt.
  destruct (Z.ltb_spec i 0) as [|_]; [lia|].
  destruct (get_some chars (Z.to_nat i)) as [c Hc]; [simpl; lia|].
  rewrite Hc. exists c. split; [reflexivity|]. exact (get_in _ _ _ Hc).
Qed.

Lemma generateNoteCode_loop_spec (random : nat -> Q) (n i : nat) (code : string) :
  (forall k : nat, (0 <= random k)%Q /\ (random k < 1)%Q) ->
  String.length (generateNoteCode_loop n i random code)
  = (String.length code + n)%nat
  /\ (forall c : Ascii.ascii,
         In c (list_ascii_of_string (generateNoteCode_loop n i random code)) ->
         In c (list_ascii_of_string code)
         \/ In c (list_ascii_of_string chars)).
Proof.
  intros Hr. revert i code.
  induction n as [|n IH]; intros i code; simpl.
  - split; [lia|auto].
  - destruct (Hr i) as [H0 H1].
    destruct (charAt_chars _ (randomIndex_range _ H0 H1)) as (c0 & E & Hin).
    rewrite E. destruct (IH (S i) (code ++ String c0 "")) as [Hlen Hcs].
    split.
    + rewrite Hlen, length_app_string. simpl. lia.
    + intros c Hc. destruct (Hcs c Hc) as [Hc'|Hc']; [|now right].
      rewrite list_ascii_app in Hc'. apply in_app_or in Hc' as [Hc'|Hc'];
        [now left|]. simpl in Hc'. destruct Hc' as [<-|[]]. now right.
Qed.

(** X1.  Whatever [Math.random()] returns in [0, 1), the code generated
    has six characters, each one of the 32 of the alphabet, so that none
    is the digit 0, the digit 1, the letter O or the letter I. *)
Theorem generateNoteCode_alphabet (random : nat -> Q) :
  (forall k : nat, (0 <= random k)%Q /\ (random k < 1)%Q) ->
  String.length (generateNoteCode random) = 6%nat
  /\ (forall c : Ascii.ascii,
         In c (list_ascii_of_string (generateNoteCode random)) ->
         In c (list_ascii_of_string chars)
         /\ ~ In c (list_ascii_of_string "01OI")).
Proof.
  intros Hr. unfold generateNoteCode.
  destruct (generateNoteCode_loop_spec random 6 0 "" Hr) as [Hlen Hcs].
  split; [exact Hlen|]. intros c Hc.
  assert (Hin : In c (list_ascii_of_string chars))
    by (destruct (Hcs c Hc) as [[]|H]; exact H).
  split; [exact Hin|]. intros Hbad. simpl in Hin, Hbad.
  repeat match goal with
         | H : _ \/ _ |- _ => destruct H as [H|H]
         end;
    try contradiction; subst c; discriminate.
Qed.

(** Every call of [Math.random()] returns one half: the code is six
    times the character of index 16. *)
Lemma generateNoteCode_alphabet_witness :
  String.length (generateNoteCode (fun _ => 1 # 2)) = 6%nat.
Proof.
  apply (generateNoteCode_alphabet (fun _ => 1 # 2)).
  intros k. split; [discriminate|reflexivity].
Defined.

End NoteCodes.

(** ** Passwords *)

Section Passwords.

Import Store NoteService NoteContent Terms.
Local Open Scope string_scope.

(** X2.  [verifyPassword] accepts exactly the two passwords of the note;
    the role is host exactly for the host's password, also when the two
    passwords are the same word, and guest exactly for a guest's password
    that is not the host's; a refused password gets no role. *)
Theorem verifyPassword_roles (note : Note) (password : string) :
  let r := verifyPassword note password in
  (valid r = true
   <-> password = host_password note \/ password = guest_password note)
  /\ (verified_role r = Some host <-> password = host_password note)
  /\ (verified_role r = Some guest
      <-> password = guest_password note /\ password <> host_password note)
  /\ (verified_role r = None <-> valid r = false).
Proof.
  unfold verifyPassword.
  destruct (String.eqb_spec password (host_password note)) as [Hh|Hh];
    [|destruct (String.eqb_spec password (guest_password note)) as [Hg|Hg]];
    simpl; repeat split; intros; try discriminate; try tauto;
    try (destruct H; congruence); try congruence.
Qed.

End Passwords.

(** ** Creating a note *)

Section CreateNote.

Import Store NoteService NoteContent Terms.
Local Open Scope string_scope.
Local Open Scope Z_scope.

Lemma insert_note_taken (n : Note) (db : Db) :
  taken db (nid n) (note_code n) -> insert_note n db = inl unique_violation.
Proof.
  intros (m & Hin & Hm). unfold insert_note.
  assert (E : existsb (fun m => (nid m =? nid n)%string
                               || (note_code m =? note_code n)%string)
                      (notes db) = true).
  { apply existsb_exists. exists m. split; [exact Hin|].
    apply orb_true_iff. destruct Hm as [Hm|Hm]; [left|right];
      now apply String.eqb_eq. }
  now rewrite E.
Qed.

Lemma insert_note_free (n : Note) (db : Db) :
  ~ taken db (nid n) (note_code n) ->
  insert_note n db = inr (n, set_notes db (notes db ++ [n])).
Proof.
  intros Hfree. unfold insert_note.
  destruct (existsb _ (notes db)) eqn:E; [|reflexivity].
  apply existsb_exists in E as (m & Hin & Hm). elim Hfree.
  exists m. split; [exact Hin|].
  apply orb_true_iff in Hm as [Hm|Hm]; [left|right];
    now apply String.eqb_eq.
Qed.

Lemma createNote_loop_skip
      (fuel attempts : nat) (codes noteIds : nat -> string)
      (participantId rowId : string) (now : Z) (db : Db)
      (title hostPassword guestPassword : string) :
  taken db (noteIds attempts) (codes attempts) ->
  createNote_loop (S fuel) attempts codes noteIds participantId rowId now db
                  title hostPassword guestPassword
  = createNote_loop fuel (S attempts) codes noteIds participantId rowId now db
                    title hostPassword guestPassword.
Proof.
  intros Ht. simpl. rewrite insert_note_taken by exact Ht. reflexivity.
Qed.

Lemma createNote_loop_hit
      (fuel attempts : nat) (codes noteIds : nat -> string)
      (participantId rowId : string) (now : Z) (db : Db)
      (title hostPassword guestPassword : string) :
  ~ taken db (noteIds attempts) (codes attempts) ->
  exists (n : Note) (db' : Db),
    createNote_loop (S fuel) attempts codes noteIds participantId rowId now db
                    title hostPassword guestPassword
    = Ok (n, participantId, db')
    /\ n = mkNote (noteIds attempts) (codes attempts) title [] None
                  hostPassword guestPassword false None now now
    /\ notes db' = (notes db ++ [n])%list
    /\ (~ In rowId (map id (note_users db)) ->
        note_users db'
        = (note_users db
             ++ [mkNoteUser rowId (noteIds attempts) participantId
                            hostUsername host now true none None])%list)
    /\ (In rowId (map id (note_users db)) -> note_users db' = note_users db).
Proof.
  intros Hfree. simpl. rewrite insert_note_free by exact Hfree.
  unfold insert_user. simpl.
  do 2 eexists. split; [reflexivity|]. split; [reflexivity|].
  destruct (existsb (fun v => (id v =? rowId)%string) (note_users db)) eqn:E.
  - simpl. split; [reflexivity|]. split; [|reflexivity].
    intros Hnot. elim Hnot. apply existsb_exists in E as (v & Hv & Hid).
    apply String.eqb_eq in Hid. rewrite <- Hid. now apply in_map.
  - assert (Hfk : existsb (fun n => (nid n =? noteIds attempts)%string)
                          (notes db ++ [mkNote (noteIds attempts)
                                          (codes attempts) title [] None
                                          hostPassword guestPassword false
                                          None now now]) = true).
    { rewrite existsb_app. simpl. rewrite String.eqb_refl.
      now rewrite orb_true_r. }
    rewrite Hfk. simpl. split; [reflexivity|]. split; [reflexivity|].
    intros Hin. apply in_map_iff in Hin as (v & Hid & Hv).
    assert (existsb (fun v => (id v =? rowId)%string) (note_users db) = true)
      by (apply existsb_exists; exists v; split;
          [exact Hv|now apply String.eqb_eq]).
    congruence.
Qed.

(** X3.  [createNote] makes at most five attempts.  When the code or the
    identifier of each of the five is already in the store, it throws
    after the fifth and nothing was written.  Otherwise the first attempt
    that is free makes the note, empty and unlocked, under that attempt's
    code, and the host's row is added for the returned participant id
    unless the row id drawn for it exists already, in which case the
    note stays without a host's row. *)
Theorem createNote_attempts
        (codes noteIds : nat -> string) (participantId rowId : string)
        (now : Z) (db : Db) (title hostPassword guestPassword : string) :
  let result := createNote codes noteIds participantId rowId now db
                           title hostPassword guestPassword in
  ((forall k : nat, (k < 5)%nat -> taken db (noteIds k) (codes k)) ->
   result = Err MaxAttemptsExceeded)
  /\ (forall j : nat,
         (j < 5)%nat ->
         (forall k : nat, (k < j)%nat -> taken db (noteIds k) (codes k)) ->
         ~ taken db (noteIds j) (codes j) ->
         exists (n : Note) (db' : Db),
           result = Ok (n, participantId, db')
           /\ n = mkNote (noteIds j) (codes j) title [] None
                         hostPassword guestPassword false None now now
           /\ notes db' = (notes db ++ [n])%list
           /\ (~ In rowId (map id (note_users db)) ->
               note_users db'
               = (note_users db
                    ++ [mkNoteUser rowId (noteIds j) participantId
                                   hostUsername host now true none None])%list)
           /\ (In rowId (map id (note_users db)) ->
               note_users db' = note_users db)).
Proof.
  cbv zeta. unfold createNote, maxAttempts. split.
  - intros Hall.
    do 5 (rewrite createNote_loop_skip by (apply Hall; lia)).
    reflexivity.
  - intros j Hj Hbefore Hfree.
    do 5 (destruct j as [|j];
          [apply createNote_loop_hit; exact Hfree
          |rewrite createNote_loop_skip by (apply Hbefore; lia)]).
    lia.
Qed.

End CreateNote.

(** ** Persisting content *)

Section Content.

Import Store NoteService NoteContent Terms.
Local Open Scope string_scope.
Local Open Scope Z_scope.

Lemma getNoteById_some (db : Db) (noteId : string) (n : Note) :
  getNoteById db noteId = Some n ->
  noteId <> ""
  /\ filter (fun m => (nid m =? noteId)%string) (notes db) = [n]
  /\ nid n = noteId.
Proof.
  unfold getNoteById, falsy.
  destruct (String.eqb_spec noteId "") as [|Hn]; [discriminate|].
  intros H. apply single_some in H. split; [exact Hn|]. split; [exact H|].
  assert (Hin : In n (filter (fun m => (nid m =? noteId)%string) (notes db)))
    by (rewrite H; now left).
  apply filter_In in Hin as [_ Hid]. now apply String.eqb_eq.
Qed.

(** What an accepted update of one note by its id does. *)
Lemma update_note_by_id (db : Db) (noteId : string) (patch : Note -> Note)
      (n : Note) :
  (forall m, nid (patch m) = nid m) ->
  getNoteById db noteId = Some n ->
  exists db' : Db,
    update_note_single (fun m => (nid m =? noteId)%string) patch db
    = inr (patch n, db')
    /\ note_users db' = note_users db
    /\ notes db'
       = map (fun m => if (nid m =? noteId)%string then patch n else m)
             (notes db)
    /\ getNoteById db' noteId = Some (patch n).
Proof.
  intros Hid Hget.
  destruct (getNoteById_some _ _ _ Hget) as (Hn & Hf & Hnid).
  assert (Hs : single (filter (fun m => (nid m =? noteId)%string) (notes db))
               = Some n) by (now rewrite Hf).
  rewrite (update_note_single_found _ patch db n Hs).
  eexists. split; [reflexivity|]. split; [reflexivity|].
  split; [reflexivity|].
  unfold getNoteById. rewrite (falsy_false _ Hn). simpl.
  change (map (fun m => if (nid m =? noteId)%string then patch n else m)
              (notes db))
    with (update_where (fun m => (nid m =? noteId)%string)
                       (fun _ => patch n) (notes db)).
  rewrite filter_update_where.
  - now rewrite Hf.
  - intros r _. rewrite Hid, Hnid. apply String.eqb_refl.
Qed.

Lemma update_note_absent (db : Db) (noteId : string) (patch : Note -> Note) :
  noteId <> "" -> getNoteById db noteId = None ->
  update_note_single (fun m => (nid m =? noteId)%string) patch db
  = inl PGRST116.
Proof.
  intros Hn. unfold getNoteById, update_note_single.
  rewrite (falsy_false _ Hn).
  destruct (filter _ (notes db)) as [|a [|b l]]; simpl;
    try reflexivity; discriminate.
Qed.

(** X4.  [updateNoteContentJson] then a read: on the one note of that
    id, the write succeeds and [getNoteById] returns the note with the
    JSON written, its plain text as [tiptapJsonToText] gives it, and
    [last_modified] set to the instant of the write; title, code,
    passwords, lock, every other note and every participant are as
    before.  An empty id is refused; an id no note has fails with
    PGRST116. *)
Theorem updateNoteContentJson_then_read
        (now : Z) (db : Db) (noteId : string) (json : Tiptap.TiptapContent) :
  (forall n : Note,
      getNoteById db noteId = Some n ->
      exists (n' : Note) (db' : Db),
        updateNoteContentJson now db noteId json = Ok (n', db')
        /\ getNoteById db' noteId = Some n'
        /\ n' = mkNote (nid n) (note_code n) (title n)
                       (Tiptap.tiptapJsonToText (Some json)) (Some json)
                       (host_password n) (guest_password n)
                       (is_locked n) (locked_by n) (created_at n) now
        /\ note_users db' = note_users db
        /\ notes db'
           = map (fun m => if (nid m =? noteId)%string then n' else m)
                 (notes db))
  /\ (noteId = "" ->
      updateNoteContentJson now db noteId json = Err InvalidNoteId)
  /\ (noteId <> "" -> getNoteById db noteId = None ->
      updateNoteContentJson now db noteId json = Err (DbError PGRST116)).
Proof.
  split; [|split].
  - intros n Hget.
    destruct (getNoteById_some _ _ _ Hget) as (Hn & _ & _).
    unfold updateNoteContentJson. rewrite (falsy_false _ Hn). cbv zeta.
    destruct (update_note_by_id
                db noteId
                (set_content_json json (Tiptap.tiptapJsonToText (Some json))
                                  now) n (fun m => eq_refl) Hget)
      as (db' & E & Hus & Hns & Hread).
    rewrite E. simpl.
    exists (set_content_json json (Tiptap.tiptapJsonToText (Some json))
                             now n), db'.
    split; [reflexivity|]. split; [exact Hread|]. split; [reflexivity|].
    split; [exact Hus|exact Hns].
  - intros ->. reflexivity.
  - intros Hn Hnone. unfold updateNoteContentJson.
    rewrite (falsy_false _ Hn). cbv zeta.
    now rewrite update_note_absent.
Qed.

Lemma update_where_twice (A : Type) (p : A -> bool) (f g : A -> A)
      (rows : list A) :
  (forall r, p (f r) = p r) -> (forall r, g (f r) = g r) ->
  update_where p g (update_where p f rows) = update_where p g rows.
Proof.
  intros Hp Hg. unfold update_where. rewrite map_map. apply map_ext.
  intros a. destruct (p a) eqn:Ha.
  - now rewrite Hp, Ha, Hg.
  - now rewrite Ha.
Qed.

Lemma updateNoteContentJson_ok_inv
      (now : Z) (db db' : Db) (noteId : string)
      (json : Tiptap.TiptapContent) (n' : Note) :
  updateNoteContentJson now db noteId json = Ok (n', db') ->
  exists n : Note,
    noteId <> ""
    /\ filter (fun m => (nid m =? noteId)%string) (notes db) = [n]
    /\ n' = set_content_json json (Tiptap.tiptapJsonToText (Some json)) now n
    /\ db' = set_notes db
               (update_where (fun m => (nid m =? noteId)%string)
                  (set_content_json json
                     (Tiptap.tiptapJsonToText (Some json)) now)
                  (notes db)).
Proof.
  unfold updateNoteContentJson, update_note_single, falsy.
  destruct (String.eqb_spec noteId "") as [|Hn]; [discriminate|]. cbv zeta.
  destruct (filter _ (notes db)) as [|a [|b l]]; simpl; try discriminate.
  intros H. injection H as <- <-. exists a. repeat split. exact Hn.
Qed.

Lemma updateNoteContentJson_on_one
      (now : Z) (db : Db) (noteId : string)
      (json : Tiptap.TiptapContent) (n : Note) :
  noteId <> "" ->
  filter (fun m => (nid m =? noteId)%string) (notes db) = [n] ->
  updateNoteContentJson now db noteId json
  = Ok (set_content_json json (Tiptap.tiptapJsonToText (Some json)) now n,
        set_notes db
          (update_where (fun m => (nid m =? noteId)%string)
             (set_content_json json
                (Tiptap.tiptapJsonToText (Some json)) now)
             (notes db))).
Proof.
  intros Hn Hf. unfold updateNoteContentJson, update_note_single.
  rewrite (falsy_false _ Hn). cbv zeta. now rewrite Hf.
Qed.

(** X5.  Last write wins: after two writes of the content of one note
    the store is what the second write alone would have left, and the
    note read back carries the second content; nothing of the first
    remains. *)
Theorem updateNoteContentJson_last_write_wins
        (t1 t2 : Z) (db db1 db2 : Db) (noteId : string)
        (json1 json2 : Tiptap.TiptapContent) (n1 n2 : Note) :
  updateNoteContentJson t1 db noteId json1 = Ok (n1, db1) ->
  updateNoteContentJson t2 db1 noteId json2 = Ok (n2, db2) ->
  updateNoteContentJson t2 db noteId json2 = Ok (n2, db2)
  /\ content_json n2 = Some json2
  /\ content n2 = Tiptap.tiptapJsonToText (Some json2)
  /\ last_modified n2 = t2
  /\ getNoteById db2 noteId = Some n2.
Proof.
  intros H1 H2.
  destruct (updateNoteContentJson_ok_inv _ _ _ _ _ _ H1)
    as (n & Hn & Hf & -> & ->).
  destruct (updateNoteContentJson_ok_inv _ _ _ _ _ _ H2)
    as (m & _ & Hf1 & -> & ->).
  simpl in Hf1. rewrite filter_update_where in Hf1 by (intros ? Hp; exact Hp).
  rewrite Hf in Hf1. simpl in Hf1. injection Hf1 as <-.
  split; [|split; [reflexivity|split; [reflexivity|split; [reflexivity|]]]].
  - rewrite (updateNoteContentJson_on_one t2 db noteId json2 n Hn Hf).
    simpl. rewrite update_where_twice by reflexivity. reflexivity.
  - unfold getNoteById. rewrite (falsy_false _ Hn). simpl.
    rewrite !filter_update_where by (intros ? Hp; exact Hp). now rewrite Hf.
Qed.

(** Two writes on the note of the demonstration session. *)
Lemma updateNoteContentJson_last_write_wins_witness :
  exists (n2 : Note) (db2 : Db),
    updateNoteContentJson 9 Demo.session "n1" Tiptap.emptyDoc = Ok (n2, db2)
    /\ last_modified n2 = 9.
Proof.
  destruct (updateNoteContentJson_last_write_wins
              5 9 Demo.session
              (set_notes Demo.session
                 [set_content_json (Tiptap.textToTiptapJson [97%N]) [97%N] 5
                                   Demo.theNote])
              (set_notes Demo.session
                 [set_content_json Tiptap.emptyDoc [] 9 Demo.theNote])
              "n1" (Tiptap.textToTiptapJson [97%N]) Tiptap.emptyDoc
              (set_content_json (Tiptap.textToTiptapJson [97%N]) [97%N] 5
                                Demo.theNote)
              (set_content_json Tiptap.emptyDoc [] 9 Demo.theNote)
              eq_refl eq_refl) as (E & _ & _ & Ht & _).
  do 2 eexists. split; [exact E|exact Ht].
Defined.

(** The text of a document made from an inked text is that text. *)
Lemma textToTiptapJson_reads_back (s : Tiptap.jsstring) :
  inked s ->
  Tiptap.tiptapJsonToText (Some (Tiptap.textToTiptapJson s)) = s.
Proof.
  intros Hink. unfold inked in Hink. unfold Tiptap.textToTiptapJson.
  assert (Ht : Tiptap.truthy s = true)
    by (destruct s; [discriminate|reflexivity]).
  assert (He : Tiptap.jsstring_eqb (Tiptap.trim s) [] = false).
  { destruct (Tiptap.jsstring_eqb (Tiptap.trim s) []) eqn:E; [|reflexivity].
    apply jsstring_eqb_nil, trim_nil_iff in E.
    now rewrite (some_ink_not_blank s Hink) in E. }
  rewrite Ht, He. simpl.
  rewrite nodeText_paragraphs. apply join_split.
Qed.

(** X6.  [updateNoteContent] writes the plain text and the time only:
    the note's JSON is left as it was.  So a note that has JSON keeps
    being served with that JSON after its text was replaced, while a note
    without JSON is served the document of the new text, which reads
    back as that text when it is inked. *)
Theorem updateNoteContent_keeps_json
        (now : Z) (db db' : Db) (noteId : string)
        (text : Tiptap.jsstring) (n' : Note) :
  updateNoteContent now db noteId text = Ok (n', db') ->
  exists n : Note,
    getNoteById db noteId = Some n
    /\ getNoteById db' noteId = Some n'
    /\ content n' = text
    /\ content_json n' = content_json n
    /\ last_modified n' = now
    /\ (forall json : Tiptap.TiptapContent,
           content_json n = Some json -> servedContentJson n' = json)
    /\ (content_json n = None -> inked text ->
        Tiptap.tiptapJsonToText (Some (servedContentJson n')) = text).
Proof.
  unfold updateNoteContent, update_note_single, falsy.
  destruct (String.eqb_spec noteId "") as [|Hn]; [discriminate|].
  destruct (filter (fun m => (nid m =? noteId)%string) (notes db))
    as [|a [|b l]] eqn:Hf; simpl; try discriminate.
  intros H. injection H as <- <-. exists a.
  split; [unfold getNoteById; now rewrite (falsy_false _ Hn), Hf|].
  split.
  { unfold getNoteById. rewrite (falsy_false _ Hn). simpl.
    rewrite filter_update_where by (intros ? Hp; exact Hp). now rewrite Hf. }
  split; [reflexivity|]. split; [reflexivity|]. split; [reflexivity|].
  unfold servedContentJson. simpl. split.
  - intros json ->. reflexivity.
  - intros -> Hink. now apply textToTiptapJson_reads_back.
Qed.

(** The text of the demonstration note, which has no JSON, is replaced. *)
Lemma updateNoteContent_keeps_json_witness :
  exists n : Note,
    getNoteById Demo.session "n1" = Some n /\ content_json n = None.
Proof.
  destruct (updateNoteContent_keeps_json
              5 Demo.session
              (set_notes Demo.session [set_content [97%N] 5 Demo.theNote])
              "n1" [97%N] (set_content [97%N] 5 Demo.theNote) eq_refl)
    as (n & Hget & _ & _ & Hj & _).
  exists n. split; [exact Hget|]. symmetry. exact Hj.
Defined.

End Content.

(** ** Leaving and deleting *)

Section LeaveAndDelete.

Import Store NoteService NoteContent Terms.
Local Open Scope string_scope.
Local Open Scope Z_scope.

Lemma key_is_iff (noteId userId : string) (u : NoteUser) :
  key_is noteId userId u = true <-> note_id u = noteId /\ user_id u = userId.
Proof.
  unfold key_is. rewrite andb_true_iff, !String.eqb_eq. tauto.
Qed.

Lemma filter_filter_negb (A : Type) (p : A -> bool) (l : list A) :
  filter p (filter (fun a => negb (p a)) l) = [].
Proof.
  apply filter_none. intros r Hr. apply filter_In in Hr as [_ Hr].
  now apply negb_true_iff.
Qed.

Lemma filter_all (A : Type) (p : A -> bool) (l : list A) :
  (forall a, In a l -> p a = true) -> filter p l = l.
Proof.
  induction l as [|a l IH]; simpl; intros H; [reflexivity|].
  rewrite (H a (or_introl eq_refl)). f_equal. apply IH.
  intros b Hb. apply H. now right.
Qed.

Lemma set_note_users_same (db : Db) : set_note_users db (note_users db) = db.
Proof. now destruct db. Qed.

(** X7.  [leaveNote] on well-formed identifiers removes the record of
    the participant in the session and no other: afterwards the key reads
    nothing, the other records are there in their order, the notes are
    untouched.  Leaving again changes nothing, and leaving without a
    record is a no-op. *)
Theorem leaveNote_removes (db : Db) (noteId userId : string) :
  noteId <> "" -> userId <> "" ->
  let db' := leaveNote db noteId userId in
  getNoteUser db' noteId userId = None
  /\ (forall u : NoteUser,
         In u (note_users db')
         <-> In u (note_users db)
             /\ ~ (note_id u = noteId /\ user_id u = userId))
  /\ note_users db'
     = filter (fun u => negb (key_is noteId userId u)) (note_users db)
  /\ notes db' = notes db
  /\ leaveNote db' noteId userId = db'
  /\ (filter (key_is noteId userId) (note_users db) = [] -> db' = db).
Proof.
  intros Hn Hu db'. subst db'. unfold leaveNote.
  rewrite (falsy_false _ Hn), (falsy_false _ Hu). simpl.
  split; [|split; [|split; [reflexivity|split; [reflexivity|split]]]].
  - unfold getNoteUser, select_user.
    rewrite (falsy_false _ Hn), (falsy_false _ Hu). simpl.
    now rewrite filter_filter_negb.
  - intros u. rewrite filter_In, negb_true_iff, <- key_is_iff.
    destruct (key_is noteId userId u); split; intros [H1 H2]; split;
      auto; try discriminate. now elim H2.
  - unfold set_note_users. simpl. f_equal.
    apply filter_all. intros a Ha. now apply filter_In in Ha.
  - intros Hnone. rewrite filter_all; [apply set_note_users_same|].
    intros a Ha. destruct (key_is noteId userId a) eqn:Hk; [|reflexivity].
    assert (In a (filter (key_is noteId userId) (note_users db)))
      by (apply filter_In; auto).
    rewrite Hnone in H. contradiction.
Qed.

(** The guest leaves the demonstration session. *)
Lemma leaveNote_removes_witness :
  note_users (leaveNote Demo.session "n1" "g1") = [Demo.theHost].
Proof.
  destruct (leaveNote_removes Demo.session "n1" "g1")
    as (_ & _ & E & _); try discriminate.
  rewrite E. reflexivity.
Defined.

(** X8.  Joining then leaving: when the participant had no record, the
    store after [joinNote] and [leaveNote] is the store before. *)
Theorem joinNote_then_leaveNote
        (rowId : string) (now : Z) (db db1 : Db)
        (noteId userId name : string) (r : UserRole) (u : NoteUser) :
  filter (key_is noteId userId) (note_users db) = [] ->
  joinNote rowId now db noteId userId name r = Ok (u, db1) ->
  getNoteUser db1 noteId userId = Some u
  /\ leaveNote db1 noteId userId = db.
Proof.
  intros Hnone. unfold joinNote, falsy.
  destruct (String.eqb_spec noteId "") as [|Hn]; [discriminate|].
  destruct (String.eqb_spec userId "") as [|Hu]; [discriminate|].
  unfold select_user. rewrite Hnone. simpl. unfold insert_user. simpl.
  destruct (existsb _ (note_users db)); [discriminate|].
  destruct (negb _); [discriminate|].
  simpl. intros H. injection H as <- <-.
  assert (Hk : key_is noteId userId
                      (newParticipant rowId noteId userId name r now) = true)
    by (apply key_is_iff; split; reflexivity).
  split.
  - unfold getNoteUser, select_user.
    rewrite (falsy_false _ Hn), (falsy_false _ Hu). simpl.
    rewrite filter_app, Hnone. simpl. now rewrite Hk.
  - unfold leaveNote. rewrite (falsy_false _ Hn), (falsy_false _ Hu).
    simpl. rewrite filter_app. simpl. rewrite Hk. simpl.
    rewrite app_nil_r. unfold set_note_users. simpl.
    rewrite filter_all; [now destruct db|].
    intros a Ha. destruct (key_is noteId userId a) eqn:Hka; [|reflexivity].
    assert (In a (filter (key_is noteId userId) (note_users db)))
      by (apply filter_In; auto).
    rewrite Hnone in H. contradiction.
Qed.

(** A newcomer joins the demonstration session and leaves it. *)
Lemma joinNote_then_leaveNote_witness :
  leaveNote
    (set_note_users Demo.session
       [Demo.theHost; Demo.theGuest;
        newParticipant "r3" "n1" "g2" "ann" guest 7])
    "n1" "g2" = Demo.session.
Proof.
  apply (joinNote_then_leaveNote "r3" 7 Demo.session _ "n1" "g2" "ann" guest
           (newParticipant "r3" "n1" "g2" "ann" guest 7));
    reflexivity.
Defined.

Lemma deleteNote_on_id (db : Db) (noteId : string) :
  noteId <> "" ->
  exists db' : Db,
    deleteNote db noteId = Ok db' /\ getNoteById db' noteId = None.
Proof.
  intros Hn. unfold deleteNote. rewrite (falsy_false _ Hn). cbv zeta.
  eexists. split; [reflexivity|].
  unfold getNoteById. rewrite (falsy_false _ Hn). simpl.
  now rewrite filter_filter_negb.
Qed.

(** X9.  [deleteNote] on a well-formed identifier removes the note and
    every record of its participants, and nothing of another session;
    afterwards the note cannot be read and nobody can join it. *)
Theorem deleteNote_removes_session (db : Db) (noteId : string) :
  noteId <> "" ->
  exists db' : Db,
    deleteNote db noteId = Ok db'
    /\ getNoteById db' noteId = None
    /\ (forall n : Note,
           In n (notes db') <-> In n (notes db) /\ nid n <> noteId)
    /\ (forall u : NoteUser,
           In u (note_users db')
           <-> In u (note_users db) /\ note_id u <> noteId)
    /\ (forall (rowId : string) (now : Z) (userId name : string)
               (r : UserRole),
           exists e : Error,
             joinNote rowId now db' noteId userId name r = Err e).
Proof.
  intros Hn. unfold deleteNote. rewrite (falsy_false _ Hn). cbv zeta.
  eexists. split; [reflexivity|]. simpl.
  assert (Hno : filter (fun m => (nid m =? noteId)%string)
                       (filter (fun m => negb (nid m =? noteId)%string)
                               (notes db)) = [])
    by (apply filter_filter_negb).
  split; [|split; [|split]].
  - unfold getNoteById. rewrite (falsy_false _ Hn). simpl. now rewrite Hno.
  - intros n. rewrite filter_In, negb_true_iff, String.eqb_neq. tauto.
  - intros u. rewrite filter_In, negb_true_iff, String.eqb_neq. tauto.
  - intros rowId now userId name r. unfold joinNote.
    rewrite (falsy_false _ Hn).
    destruct (falsy userId); [eauto|].
    unfold select_user. simpl.
    assert (Hnou : filter (key_is noteId userId)
                          (filter (fun u => negb (note_id u =? noteId)%string)
                                  (note_users db)) = []).
    { apply filter_none. intros a Ha. apply filter_In in Ha as [_ Ha].
      apply negb_true_iff in Ha. unfold key_is. now rewrite Ha. }
    rewrite Hnou. simpl. unfold insert_user. simpl.
    destruct (existsb (fun v => (id v =? rowId)%string) _); [simpl; eauto|].
    assert (Hfk : existsb (fun n => (nid n =? noteId)%string)
                          (filter (fun m => negb (nid m =? noteId)%string)
                                  (notes db)) = false).
    { destruct (existsb _ _) eqn:E; [|reflexivity].
      apply existsb_exists in E as (m & Hm & Hid).
      apply filter_In in Hm as [_ Hm]. apply negb_true_iff in Hm.
      congruence. }
    rewrite Hfk. simpl. eauto.
Qed.

(** The demonstration session is deleted. *)
Lemma deleteNote_removes_session_witness :
  deleteNote Demo.session "n1" = Ok emptyDb.
Proof.
  destruct (deleteNote_removes_session Demo.session "n1")
    as (db' & E & _); [discriminate|].
  rewrite E. vm_compute in E. injection E as <-. reflexivity.
Defined.

End LeaveAndDelete.

(** ** The rate limit of DELETE *)

Section RateLimiting.

Import Store NoteService NoteContent NoteRoute RouteTerms.
Local Open Scope string_scope.
Local Open Scope Z_scope.

Variable toUpperCase : string -> string.

Lemma isFourDigits_not_falsy (pw : string) :
  isFourDigits pw = true -> falsy pw = false.
Proof.
  unfold isFourDigits, falsy. destruct pw; [discriminate|reflexivity].
Qed.

Lemma not_locked_out_proceeds (m : RateLimitMap) (key : string) (now : Z)
      (A : Type) (locked : RateLimit -> A) (proceed : A) :
  ~ locked_out m key now ->
  match m key with
  | Some rateLimit =>
      if now <? lockedUntil rateLimit then locked rateLimit else proceed
  | None => proceed
  end = proceed.
Proof.
  intros Hfree. destruct (m key) as [e|] eqn:E; [|reflexivity].
  destruct (Z.ltb_spec now (lockedUntil e)); [|reflexivity].
  elim Hfree. exists e. auto.
Qed.

(** One refused password: counted, and at the fifth the code is locked. *)
Lemma DELETE_wrong (now : Z) (m : RateLimitMap) (db : Db) (code pw : string) :
  ~ locked_out m (toUpperCase code) now ->
  wrong_password toUpperCase db code pw ->
  DELETE toUpperCase now m db code (Some pw)
  = if 5 <=? failures m (toUpperCase code) + 1
    then (LockedNow429,
          map_set (toUpperCase code)
                  (mkRateLimit 0 (now + 10 * 60 * 1000)) m, db)
    else (WrongPassword401,
          map_set (toUpperCase code)
                  (mkRateLimit (failures m (toUpperCase code) + 1)
                               (match m (toUpperCase code) with
                                | Some e => lockedUntil e
                                | None => 0
                                end)) m, db).
Proof.
  intros Hfree (Hfmt & note & Hget & Hne). unfold DELETE. cbv zeta.
  rewrite not_locked_out_proceeds by exact Hfree.
  rewrite (isFourDigits_not_falsy _ Hfmt), Hfmt, Hget. simpl.
  apply String.eqb_neq in Hne. rewrite Hne. simpl.
  unfold failures, MAX_FAILURES, LOCK_DURATION_MS.
  destruct (m (toUpperCase code)) as [e|]; reflexivity.
Qed.

Lemma DELETE_wrong_below (now : Z) (m : RateLimitMap) (db : Db)
      (code pw : string) (k L : Z) :
  m (toUpperCase code) = Some (mkRateLimit k L) \/
  (m (toUpperCase code) = None /\ k = 0 /\ L = 0) ->
  L <= now -> k + 1 < 5 ->
  wrong_password toUpperCase db code pw ->
  DELETE toUpperCase now m db code (Some pw)
  = (WrongPassword401,
     map_set (toUpperCase code) (mkRateLimit (k + 1) L) m, db).
Proof.
  intros Hm HL Hk W.
  assert (Hfree : ~ locked_out m (toUpperCase code) now).
  { intros (e & He & Hlt).
    destruct Hm as [Hm|(Hm & _)]; rewrite Hm in He; [|discriminate].
    injection He as <-. simpl in Hlt. lia. }
  rewrite (DELETE_wrong now m db code pw Hfree W). unfold failures.
  destruct Hm as [Hm|(Hm & -> & ->)]; rewrite Hm; simpl failCount;
    simpl lockedUntil;
    (destruct (Z.leb_spec 5 (k + 1)) as [|_] || destruct (Z.leb_spec 5 (0 + 1)) as [|_]);
    try lia; reflexivity.
Qed.

Lemma DELETE_wrong_fifth (now : Z) (m : RateLimitMap) (db : Db)
      (code pw : string) (L : Z) :
  m (toUpperCase code) = Some (mkRateLimit 4 L) ->
  L <= now ->
  wrong_password toUpperCase db code pw ->
  DELETE toUpperCase now m db code (Some pw)
  = (LockedNow429,
     map_set (toUpperCase code) (mkRateLimit 0 (now + 10 * 60 * 1000)) m, db).
Proof.
  intros Hm HL W.
  assert (Hfree : ~ locked_out m (toUpperCase code) now).
  { intros (e & He & Hlt). rewrite Hm in He.
    injection He as <-. simpl in Hlt. lia. }
  rewrite (DELETE_wrong now m db code pw Hfree W). unfold failures.
  rewrite Hm. reflexivity.
Qed.

Lemma map_set_same (m : RateLimitMap) (key : string) (e : RateLimit) :
  map_set key e m key = Some e.
Proof. unfold map_set. now rewrite String.eqb_refl. Qed.

(** X10.  Five refused passwords lock the code.  From a code with no
    entry, five requests with well-formed passwords that are not the
    host's are answered 401 four times and 429 the fifth time; the note
    is still there, and the code is locked for ten minutes from the
    fifth request with its count back to zero. *)
Theorem DELETE_locks_after_five
        (m : RateLimitMap) (db : Db) (code : string)
        (t1 t2 t3 t4 t5 : Z) (p1 p2 p3 p4 p5 : string) :
  m (toUpperCase code) = None ->
  0 <= t1 -> 0 <= t2 -> 0 <= t3 -> 0 <= t4 -> 0 <= t5 ->
  wrong_password toUpperCase db code p1 ->
  wrong_password toUpperCase db code p2 ->
  wrong_password toUpperCase db code p3 ->
  wrong_password toUpperCase db code p4 ->
  wrong_password toUpperCase db code p5 ->
  exists m' : RateLimitMap,
    DELETE_all toUpperCase
               [(t1, Some p1); (t2, Some p2); (t3, Some p3);
                (t4, Some p4); (t5, Some p5)] m db code
    = ([WrongPassword401; WrongPassword401; WrongPassword401;
        WrongPassword401; LockedNow429], m', db)
    /\ m' (toUpperCase code)
       = Some (mkRateLimit 0 (t5 + 10 * 60 * 1000))
    /\ (forall now : Z,
           now < t5 + 10 * 60 * 1000 ->
           locked_out m' (toUpperCase code) now).
Proof.
  intros Hnone H1 H2 H3 H4 H5 W1 W2 W3 W4 W5.
  set (key := toUpperCase code) in *.
  simpl DELETE_all.
  rewrite (DELETE_wrong_below t1 m db code p1 0 0) by (auto; lia).
  cbv beta iota. fold key.
  set (m1 := map_set key (mkRateLimit (0 + 1) 0) m).
  rewrite (DELETE_wrong_below t2 m1 db code p2 (0 + 1) 0)
    by (try (left; apply map_set_same); auto; lia).
  cbv beta iota. fold key.
  set (m2 := map_set key (mkRateLimit (0 + 1 + 1) 0) m1).
  rewrite (DELETE_wrong_below t3 m2 db code p3 (0 + 1 + 1) 0)
    by (try (left; apply map_set_same); auto; lia).
  cbv beta iota. fold key.
  set (m3 := map_set key (mkRateLimit (0 + 1 + 1 + 1) 0) m2).
  rewrite (DELETE_wrong_below t4 m3 db code p4 (0 + 1 + 1 + 1) 0)
    by (try (left; apply map_set_same); auto; lia).
  cbv beta iota. fold key.
  set (m4 := map_set key (mkRateLimit (0 + 1 + 1 + 1 + 1) 0) m3).
  rewrite (DELETE_wrong_fifth t5 m4 db code p5 0)
    by (try apply map_set_same; auto).
  cbv beta iota. fold key.
  eexists. split; [reflexivity|].
  split; [apply map_set_same|].
  intros now Hlt. eexists. split; [apply map_set_same|exact Hlt].
Qed.

Lemma ceilMinutes_bounds (ms : Z) :
  0 < ms -> 1 <= ceilMinutes ms /\ (ms <= 10 * 60 * 1000 -> ceilMinutes ms <= 10)
  /\ 60000 * (ceilMinutes ms - 1) < ms <= 60000 * ceilMinutes ms.
Proof.
  intros Hpos. unfold ceilMinutes.
  pose proof (Z.div_mod (- ms) 60000 ltac:(lia)) as Hd.
  pose proof (Z.mod_pos_bound (- ms) 60000 ltac:(lia)) as Hm.
  lia.
Qed.

(** X11.  While a code is locked every DELETE for it is answered 429,
    whatever the password, the host's included: neither the store nor
    the map changes.  The minutes announced are the time left rounded
    up, at least 1, and at most 10 when the lock has at most ten minutes
    to run. *)
Theorem DELETE_refused_while_locked
        (now : Z) (m : RateLimitMap) (db : Db) (code : string)
        (password : option string) (e : RateLimit) :
  m (toUpperCase code) = Some e -> now < lockedUntil e ->
  exists minutes : Z,
    DELETE toUpperCase now m db code password = (Locked429 minutes, m, db)
    /\ 60000 * (minutes - 1) < lockedUntil e - now <= 60000 * minutes
    /\ 1 <= minutes
    /\ (lockedUntil e - now <= 10 * 60 * 1000 -> minutes <= 10).
Proof.
  intros He Hlt. unfold DELETE. cbv zeta. rewrite He.
  apply Z.ltb_lt in Hlt. rewrite Hlt. apply Z.ltb_lt in Hlt.
  eexists. split; [reflexivity|].
  destruct (ceilMinutes_bounds (lockedUntil e - now) ltac:(lia))
    as (H1 & H10 & Hc).
  auto.
Qed.

(** X12.  DELETE answers 200 only to the host's password of the note the
    code names, on a code that is not locked; the note and its
    participants are then deleted and the code's entry is dropped.  The
    answers 429, 400, 404 and 401 are given before anything is written:
    with them the store is as it was.  Nothing is said of the store
    after a 500. *)
Theorem DELETE_needs_host_password
        (now : Z) (m m' : RateLimitMap) (db db' : Db) (code : string)
        (password : option string) (r : Response) :
  DELETE toUpperCase now m db code password = (r, m', db') ->
  (r = Deleted200 ->
   exists note : Note,
     getNoteByCode toUpperCase db (toUpperCase code) = Some note
     /\ password = Some (host_password note)
     /\ isFourDigits (host_password note) = true
     /\ ~ locked_out m (toUpperCase code) now
     /\ deleteNote db (nid note) = Ok db'
     /\ m' (toUpperCase code) = None)
  /\ (r <> Deleted200 -> r <> Failed500 -> db' = db).
Proof.
  unfold DELETE. cbv zeta.
  assert (Hproceed :
    forall proceed : Response * RateLimitMap * Db,
      match m (toUpperCase code) with
      | Some rateLimit =>
          if now <? lockedUntil rateLimit
          then (Locked429 (ceilMinutes (lockedUntil rateLimit - now)), m, db)
          else proceed
      | None => proceed
      end = (r, m', db') ->
      (exists k, r = Locked429 k /\ db' = db)
      \/ (proceed = (r, m', db') /\ ~ locked_out m (toUpperCase code) now)).
  { intros proceed.
    destruct (m (toUpperCase code)) as [e|] eqn:E.
    - destruct (Z.ltb_spec now (lockedUntil e)).
      + intros H0. injection H0 as <- _ <-. left. eauto.
      + intros H0. right. split; [exact H0|].
        intros (e' & He' & Hlt). rewrite E in He'.
        injection He' as <-. lia.
    - intros H0. right. split; [exact H0|].
      intros (e' & He' & _). congruence. }
  intros H. apply Hproceed in H as [(k & -> & ->)|[H Hfree]];
    [split; [discriminate|reflexivity]|].
  destruct password as [pw|];
    [|injection H as <- _ <-; split; [discriminate|reflexivity]].
  destruct (falsy pw || negb (isFourDigits pw)) eqn:Hfmt;
    [injection H as <- _ <-; split; [discriminate|reflexivity]|].
  apply orb_false_iff in Hfmt as [_ Hfmt]. apply negb_false_iff in Hfmt.
  destruct (getNoteByCode toUpperCase db (toUpperCase code)) as [note|] eqn:Hget;
    [|injection H as <- _ <-; split; [discriminate|reflexivity]].
  destruct (String.eqb_spec pw (host_password note)) as [Hpw|Hpw];
    simpl in H.
  - destruct (deleteNote db (nid note)) as [d|err] eqn:Hdel;
      injection H as <- <- <-.
    + split; [|intros Hr; now elim Hr].
      intros _. exists note. subst pw. repeat split; auto.
      unfold map_delete. now rewrite String.eqb_refl.
    + split; [discriminate|reflexivity].
  - destruct (MAX_FAILURES <=? _); injection H as <- _ <-;
      (split; [discriminate|reflexivity]).
Qed.

(** X13.  The other direction: on a code that is not locked, the
    well-formed password of the host of the note the code names is
    answered 200, the entry of the code is dropped and the note can no
    longer be read. *)
Lemma DELETE_with_host_password
      (now : Z) (m : RateLimitMap) (db : Db) (code : string) (note : Note) :
  ~ locked_out m (toUpperCase code) now ->
  getNoteByCode toUpperCase db (toUpperCase code) = Some note ->
  isFourDigits (host_password note) = true ->
  nid note <> "" ->
  exists db' : Db,
    DELETE toUpperCase now m db code (Some (host_password note))
    = (Deleted200, map_delete (toUpperCase code) m, db')
    /\ deleteNote db (nid note) = Ok db'
    /\ getNoteById db' (nid note) = None.
Proof.
  intros Hfree Hget Hfmt Hid. unfold DELETE. cbv zeta.
  rewrite not_locked_out_proceeds by exact Hfree.
  rewrite (isFourDigits_not_falsy _ Hfmt), Hfmt, Hget. simpl.
  rewrite String.eqb_refl. simpl.
  destruct (deleteNote_on_id db (nid note) Hid) as (db' & E & Hread).
  rewrite E. exists db'. auto.
Qed.

End RateLimiting.

Section RateLimitingWitnesses.

Import Store NoteService NoteContent NoteRoute RouteTerms.
Local Open Scope string_scope.
Local Open Scope Z_scope.

Lemma demo_wrong_password (pw : string) :
  isFourDigits pw = true -> pw <> "1234" ->
  wrong_password (fun s => s) Demo.session "ABC234" pw.
Proof.
  intros Hfmt Hne. split; [exact Hfmt|].
  exists Demo.theNote. split; [reflexivity|exact Hne].
Qed.

(** Five guesses at the host's password of the demonstration note. *)
Lemma DELETE_locks_after_five_witness :
  exists m' : RateLimitMap,
    DELETE_all (fun s => s)
               [(10, Some "0000"); (20, Some "0001"); (30, Some "0002");
                (40, Some "0003"); (50, Some "0004")]
               emptyMap Demo.session "ABC234"
    = ([WrongPassword401; WrongPassword401; WrongPassword401;
        WrongPassword401; LockedNow429], m', Demo.session)
    /\ m' "ABC234" = Some (mkRateLimit 0 600050).
Proof.
  destruct (DELETE_locks_after_five
              (fun s => s) emptyMap Demo.session "ABC234"
              10 20 30 40 50 "0000" "0001" "0002" "0003" "0004")
    as (m' & E & Hm & _);
    try reflexivity; try lia;
    try (apply demo_wrong_password; [reflexivity|discriminate]).
  exists m'. split; [exact E|exact Hm].
Defined.

(** The host's own password during the lock. *)
Lemma DELETE_refused_while_locked_witness :
  exists minutes : Z,
    DELETE (fun s => s) 60050
           (map_set "ABC234" (mkRateLimit 0 600050) emptyMap)
           Demo.session "ABC234" (Some "1234")
    = (Locked429 minutes,
       map_set "ABC234" (mkRateLimit 0 600050) emptyMap, Demo.session)
    /\ 1 <= minutes.
Proof.
  destruct (DELETE_refused_while_locked
              (fun s => s) 60050
              (map_set "ABC234" (mkRateLimit 0 600050) emptyMap)
              Demo.session "ABC234" (Some "1234") (mkRateLimit 0 600050))
    as (minutes & E & _ & H1 & _).
  - reflexivity.
  - simpl. lia.
  - exists minutes. split; [exact E|exact H1].
Defined.

(** The host deletes the demonstration note. *)
Lemma DELETE_needs_host_password_witness :
  exists note : Note,
    getNoteByCode (fun s => s) Demo.session "ABC234" = Some note
    /\ Some "1234" = Some (host_password note).
Proof.
  destruct (DELETE_needs_host_password
              (fun s => s) 5 emptyMap (map_delete "ABC234" emptyMap)
              Demo.session emptyDb "ABC234" (Some "1234") Deleted200
              eq_refl) as [H _].
  destruct (H eq_refl) as (note & Hget & Hpw & _).
  exists note. split; [exact Hget|exact Hpw].
Defined.

End RateLimitingWitnesses.


Section RateLimitingMore.

Import Store NoteService NoteContent NoteRoute RouteTerms.
Local Open Scope string_scope.
Local Open Scope Z_scope.

(** The host's password on the fresh map. *)
Lemma DELETE_with_host_password_witness :
  exists db' : Db,
    DELETE (fun s => s) 5 emptyMap Demo.session "ABC234" (Some "1234")
    = (Deleted200, map_delete "ABC234" emptyMap, db')
    /\ getNoteById db' "n1" = None.
Proof.
  destruct (DELETE_with_host_password
              (fun s => s) 5 emptyMap Demo.session "ABC234" Demo.theNote)
    as (db' & E & _ & Hread).
  - intros (e & He & _). discriminate.
  - reflexivity.
  - reflexivity.
  - discriminate.
  - exists db'. split; [exact E|exact Hread].
Defined.

End RateLimitingMore.

(** ** Releasing the lock *)

Section ReleaseLock.

Import Store NoteService NoteContent NoteLock Vocabulary.
Local Open Scope string_scope.
Local Open Scope Z_scope.

(** X14.  [releaseLock] by a host.  When the caller's view names another
    holder nothing is written and the view keeps the lock, with the
    error set.  Otherwise, on an existing session, the row is written
    unlocked with no holder and the view follows; taking the lock and
    releasing it leaves the session unlocked. *)
Theorem releaseLock_outcomes
        (noteId userId : string) (now : Z) (st : LockState) (db : Db) :
  (forall other : string,
      lockedBy st = Some other -> other <> userId ->
      releaseLock noteId userId host now st db
      = (None, mkLockState (isLocked st) (lockedBy st) (Some LockedByAnother),
         db))
  /\ (forall n : Note,
         lockedBy st = Some userId \/ lockedBy st = None ->
         getNoteById db noteId = Some n ->
         exists db' : Db,
           releaseLock noteId userId host now st db
           = (None, mkLockState false None None, db')
           /\ (exists n' : Note,
                  getNoteById db' noteId = Some n'
                  /\ is_locked n' = false /\ locked_by n' = None
                  /\ content_json n' = content_json n
                  /\ content n' = content n)
           /\ note_users db' = note_users db)
  /\ (forall (n : Note) (t : Z) (st1 : LockState) (db1 : Db),
         getNoteById db noteId = Some n ->
         requestLock noteId userId host t st db = (true, st1, db1) ->
         exists db2 : Db,
           releaseLock noteId userId host now st1 db1
           = (None, mkLockState false None None, db2)
           /\ exists n2 : Note,
               getNoteById db2 noteId = Some n2
               /\ is_locked n2 = false /\ locked_by n2 = None).
Proof.
  assert (Hrel :
    forall (s : LockState) (d : Db) (n : Note),
      lockedBy s = Some userId \/ lockedBy s = None ->
      getNoteById d noteId = Some n ->
      exists d' : Db,
        releaseLock noteId userId host now s d
        = (None, mkLockState false None None, d')
        /\ (exists n' : Note,
               getNoteById d' noteId = Some n'
               /\ is_locked n' = false /\ locked_by n' = None
               /\ content_json n' = content_json n
               /\ content n' = content n)
        /\ note_users d' = note_users d).
  { intros s d n Hby Hget. unfold releaseLock. simpl.
    assert (Hguard : negb (holder_is (lockedBy s) userId)
                     && match lockedBy s with
                        | Some _ => true | None => false end = false).
    { destruct Hby as [-> | ->]; simpl; [|reflexivity].
      now rewrite String.eqb_refl. }
    rewrite Hguard. unfold setNoteLock.
    destruct (getNoteById_some _ _ _ Hget) as (Hn & _ & _).
    rewrite (falsy_false _ Hn).
    destruct (update_note_by_id
                d noteId
                (fun m => mkNote (nid m) (note_code m) (title m) (content m)
                                 (content_json m) (host_password m)
                                 (guest_password m) false None
                                 (created_at m) now)
                n (fun m => eq_refl) Hget) as (d' & E & Hus & _ & Hread).
    rewrite E. simpl. exists d'. split; [reflexivity|].
    split; [|exact Hus]. eexists. split; [exact Hread|]. repeat split. }
  split; [|split].
  - intros other Hby Hne. unfold releaseLock. simpl. rewrite Hby. simpl.
    apply String.eqb_neq in Hne. now rewrite Hne.
  - intros n Hby Hget. exact (Hrel st db n Hby Hget).
  - intros n t st1 db1 Hget Hreq.
    assert (H1 : lockedBy st1 = Some userId
                 /\ exists n1, getNoteById db1 noteId = Some n1).
    { unfold requestLock in Hreq. simpl in Hreq.
      destruct (isLocked st && holder_is (lockedBy st) userId) eqn:Hheld.
      - injection Hreq as <- <-.
        apply andb_true_iff in Hheld as [_ Hh]. unfold holder_is in Hh.
        destruct (lockedBy st) as [h|]; [|discriminate].
        apply String.eqb_eq in Hh. subst h. eauto.
      - unfold setNoteLock in Hreq.
        destruct (getNoteById_some _ _ _ Hget) as (Hn & _ & _).
        rewrite (falsy_false _ Hn) in Hreq.
        destruct (update_note_by_id
                    db noteId
                    (fun m => mkNote (nid m) (note_code m) (title m)
                                     (content m) (content_json m)
                                     (host_password m) (guest_password m)
                                     true (Some userId) (created_at m) t)
                    n (fun m => eq_refl) Hget) as (d' & E & _ & _ & Hread).
        rewrite E in Hreq. simpl in Hreq. injection Hreq as <- <-.
        simpl. eauto. }
    destruct H1 as (Hby & n1 & Hget1).
    destruct (Hrel st1 db1 n1 (or_introl Hby) Hget1)
      as (d2 & E & (n2 & Hr & Hl & Hb & _) & _).
    exists d2. split; [exact E|]. exists n2. auto.
Qed.

End ReleaseLock.

(** ** Retrying the lock subscription *)

Section LockRetries.

Import RealtimeNote LockChannel Vocabulary.
Local Open Scope Z_scope.

Lemma LockChannel_onStatus_failed (status : SubscribeStatus) (c : Channel) :
  failed status ->
  LockChannel.onStatus status c
  = if (LockChannel.reconnectAttempts c <? 3)%nat
    then (mkChannel false (S (LockChannel.reconnectAttempts c)),
          Some (1000 * Z.of_nat (S (LockChannel.reconnectAttempts c))))
    else (mkChannel false (LockChannel.reconnectAttempts c), None).
Proof. intros [-> | ->]; reflexivity. Qed.

(** X15.  The lock subscription retries three times, later each time.
    Counted from zero, the first three failure reports in a row set a
    resubscription after 1, 2 and 3 seconds; every further failure sets
    none, and the hook stays disconnected. *)
Theorem lock_subscription_retries
        (c : Channel) (s1 s2 s3 : SubscribeStatus)
        (more : list SubscribeStatus) :
  LockChannel.reconnectAttempts c = 0%nat ->
  failed s1 -> failed s2 -> failed s3 -> Forall failed more ->
  delays (s1 :: s2 :: s3 :: more) c
  = (Some 1000 :: Some 2000 :: Some 3000 :: map (fun _ => None) more,
     mkChannel false 3).
Proof.
  intros H0 F1 F2 F3 Fmore. destruct c as [conn k]. simpl in H0. subst k.
  simpl delays.
  rewrite (LockChannel_onStatus_failed s1 _ F1). simpl.
  rewrite (LockChannel_onStatus_failed s2 _ F2). simpl.
  rewrite (LockChannel_onStatus_failed s3 _ F3). simpl.
  assert (Hrest : delays more (mkChannel false 3)
                  = (map (fun _ => None) more, mkChannel false 3)).
  { induction Fmore as [|s l Fs _ IH]; simpl; [reflexivity|].
    rewrite (LockChannel_onStatus_failed s _ Fs). simpl. now rewrite IH. }
  now rewrite Hrest.
Qed.

(** Five timeouts in a row on a fresh subscription. *)
Lemma lock_subscription_retries_witness :
  fst (delays [TIMED_OUT; TIMED_OUT; TIMED_OUT; TIMED_OUT; TIMED_OUT]
              (mkChannel false 0))
  = [Some 1000; Some 2000; Some 3000; None; None].
Proof.
  rewrite (lock_subscription_retries
             (mkChannel false 0) TIMED_OUT TIMED_OUT TIMED_OUT
             [TIMED_OUT; TIMED_OUT] eq_refl
             (or_intror eq_refl) (or_intror eq_refl) (or_intror eq_refl)).
  - reflexivity.
  - repeat constructor; right; reflexivity.
Defined.

End LockRetries.

(** ** Local edits and what comes in *)

Section LocalEdits.

Import Store RealtimeNote AgentTerms.
Local Open Scope Z_scope.

Variable Content : Type.
Variable stringify : Content -> string.

(** X16.  Echo suppression, as the hook does it.  After a local edit the
    next pushed update is dropped whatever it carries, the local content
    stays and the flag is cleared; the push after that replaces the
    content unless it serialises to the same text. *)
Theorem local_edit_drops_next_push
        (a : Agent Content) (c : Content) (pushed later : option Content) :
  let a1 := onUpdate stringify pushed (setContentJson c a) in
  contentJson a1 = Some c
  /\ isLocalChange a1 = false
  /\ pendingSave a1 = true
  /\ contentJson (onUpdate stringify later a1)
     = (if isContentJsonEqual stringify later (Some c)
        then Some c else later).
Proof.
  cbv zeta. unfold onUpdate, setContentJson. simpl.
  repeat split.
  destruct (isContentJsonEqual stringify later (Some c)); reflexivity.
Qed.

Lemma quietStep_keeps_local (a : Agent Content) (e : QuietEvent Content) :
  isLocalChange a = true ->
  isLocalChange (quietStep stringify a e) = true
  /\ contentJson (quietStep stringify a e) = contentJson a.
Proof.
  intros Hl. destruct e as [fetched|now status]; simpl.
  - unfold fetchNoteContent. destruct fetched as [err|c]; [auto|].
    rewrite Hl. simpl. auto.
  - destruct status; simpl; auto;
      destruct (reconnectAttempts a <? MAX_RECONNECT_ATTEMPTS)%nat;
      simpl; auto.
Qed.

(** X17.  Without a push nothing clears the local-change flag: after a
    local edit, however many polls and subscription reports follow, the
    agent still shows the edited content, whatever the store answers to
    the polls. *)
Theorem local_edit_blocks_polls
        (a : Agent Content) (c : Content) (events : list (QuietEvent Content)) :
  contentJson (quietRun stringify events (setContentJson c a)) = Some c
  /\ isLocalChange (quietRun stringify events (setContentJson c a)) = true.
Proof.
  unfold quietRun.
  assert (H : forall b : Agent Content,
             isLocalChange b = true ->
             contentJson (fold_left (quietStep stringify) events b)
             = contentJson b
             /\ isLocalChange (fold_left (quietStep stringify) events b)
                = true).
  { induction events as [|e l IH]; intros b Hb; simpl; [auto|].
    destruct (quietStep_keeps_local b e Hb) as [Hl Hc].
    destruct (IH _ Hl) as [Hc' Hl']. rewrite Hc', Hc. auto. }
  destruct (H (setContentJson c a) eq_refl) as [Hc Hl]. auto.
Qed.

End LocalEdits.

(** ** The client's countdown *)

Section Countdown.

Import Store NoteService EditPermission Terms.
Local Open Scope string_scope.
Local Open Scope Z_scope.

(** X18.  The countdown started at [n] seconds, [n] at least 1, shows
    [n - k] after [k] firings while [k < n], with the timer running; the
    n-th firing shows 0 and clears the timer, and it stays so. *)
Theorem countdown_runs_down (n : Z) (k : nat) (c : Countdown) :
  1 <= n ->
  ticks k (startCooldown n c)
  = if Z.of_nat k <? n then mkCountdown (n - Z.of_nat k) true
    else mkCountdown 0 false.
Proof.
  unfold startCooldown. clear c. revert n.
  induction k as [|k IH]; intros n Hn.
  - simpl. destruct (Z.ltb_spec 0 n); [|lia]. f_equal. lia.
  - cbn [ticks]. unfold tick at 1. simpl cooldownTimer. simpl cooldownSeconds.
    destruct (Z.leb_spec n 1) as [Hle|Hgt].
    + assert (n = 1) by lia. subst n.
      destruct (Z.ltb_spec (Z.of_nat (S k)) 1); [lia|].
      clear. induction k as [|k IHk]; [reflexivity|exact IHk].
    + rewrite (IH (n - 1)) by lia.
      destruct (Z.ltb_spec (Z.of_nat k) (n - 1));
        destruct (Z.ltb_spec (Z.of_nat (S k)) n); try lia;
        [f_equal; lia|reflexivity].
Qed.

(** Thirty seconds, ten firings. *)
Lemma countdown_runs_down_witness :
  ticks 10 (startCooldown 30 (mkCountdown 0 false)) = mkCountdown 20 true.
Proof.
  rewrite (countdown_runs_down 30 10 (mkCountdown 0 false)) by lia.
  reflexivity.
Defined.

End Countdown.

(** ** The client's view of the participants *)

Section ClientView.

Import Store NoteService EditPermission Terms.
Local Open Scope string_scope.
Local Open Scope Z_scope.

(** X19.  For a guest who may not edit yet, client and server agree on
    the cooldown.  From the guest's record read at [now],
    [fetchNoteUsers] starts the countdown at exactly the number of
    seconds with which [requestEditPermission], called at that instant,
    refuses the request, and leaves the countdown alone exactly when
    the request goes through; the server gives no other answer. *)
Theorem client_countdown_agrees
        (now : Z) (db : Db) (noteId userId : string) (u : NoteUser)
        (c : Countdown) :
  noteId <> "" -> userId <> "" ->
  select_user db noteId userId = Some u ->
  role u = guest -> can_edit u = false ->
  match requestEditPermission now db noteId userId with
  | Err (Cooldown remaining) =>
      0 < remaining /\ syncCooldown now u c = startCooldown remaining c
  | Ok (u', _) =>
      permission_status u' = requested /\ syncCooldown now u c = c
  | Err _ => False
  end.
Proof.
  intros Hn Hu Hsel Hrole Hce. unfold requestEditPermission.
  rewrite (falsy_false _ Hn), (falsy_false _ Hu), Hsel, Hrole, Hce. simpl.
  assert (Hsync : syncCooldown now u c
                  = match cooldownCheck now u with
                    | Some remaining => startCooldown remaining c
                    | None => c
                    end
                  /\ forall remaining : Z,
                       cooldownCheck now u = Some remaining -> 0 < remaining).
  { unfold syncCooldown, cooldownCheck, startCooldown.
    destruct (permission_requested_at u) as [last|];
      [|split; [reflexivity|discriminate]].
    cbv zeta.
    change (inject_Z (now - last) / inject_Z 1000)%Q
      with (elapsedSeconds now last).
    change (Qceiling (COOLDOWN_DURATION - elapsedSeconds now last)%Q)
      with (remainingSeconds (elapsedSeconds now last)).
    rewrite Qltb_elapsed.
    pose proof (remainingSeconds_is_ceiling now last) as Hc.
    unfold Vocabulary.ceiling_of_thousandths in Hc.
    set (rem := remainingSeconds (elapsedSeconds now last)) in *.
    destruct (Z.ltb_spec (now - last) (30 * 1000)) as [Hlt|Hge].
    - assert (Hmax : Z.max 0 rem = rem) by lia.
      assert (Hpos : (0 <? rem) = true) by (apply Z.ltb_lt; lia).
      rewrite Hmax, Hpos.
      split; [destruct (permission_status u); reflexivity|].
      intros remaining E.
      destruct (permission_status u); simpl in E;
        try discriminate; injection E as <-; lia.
    - assert (Hmax : Z.max 0 rem = 0) by lia. rewrite Hmax.
      split; [destruct (permission_status u); reflexivity|].
      intros remaining E.
      destruct (permission_status u); simpl in E; discriminate. }
  destruct Hsync as [Hsync Hpos].
  destruct (cooldownCheck now u) as [remaining|] eqn:Ecd.
  - split; [exact (Hpos remaining eq_refl)|exact Hsync].
  - unfold select_user in Hsel.
    rewrite (update_user_single_found _ (set_requested now) db u Hsel).
    simpl. split; [reflexivity|exact Hsync].
Qed.

(** The guest of the demonstration session asked at 1000 and looks
    again at 11000: twenty seconds are left on both sides. *)
Lemma client_countdown_agrees_witness :
  requestEditPermission
    11000
    (set_note_users Demo.session
       [Demo.theHost; set_requested 1000 Demo.theGuest])
    "n1" "g1" = Err (Cooldown 20)
  /\ syncCooldown 11000 (set_requested 1000 Demo.theGuest)
                  (mkCountdown 0 false)
     = mkCountdown 20 true.
Proof.
  pose proof (client_countdown_agrees
                11000
                (set_note_users Demo.session
                   [Demo.theHost; set_requested 1000 Demo.theGuest])
                "n1" "g1" (set_requested 1000 Demo.theGuest)
                (mkCountdown 0 false)) as H.
  assert (E : requestEditPermission
                11000
                (set_note_users Demo.session
                   [Demo.theHost; set_requested 1000 Demo.theGuest])
                "n1" "g1" = Err (Cooldown 20)) by (vm_compute; reflexivity).
  rewrite E in H.
  split; [reflexivity|].
  apply H; try discriminate; reflexivity.
Defined.

(** Why the guest must not be able to edit yet: a guest who asks at 1000,
    is denied and is then enabled with the host's direct toggle keeps
    the status [denied]; at 2000 the client still counts down from 29
    while the server answers that the guest may edit already. *)
Lemma enabled_guest_counts_alone :
  exists (u1 u2 u3 : NoteUser) (db1 db2 db3 : Db),
    requestEditPermission 1000 Demo.session "n1" "g1" = Ok (u1, db1)
    /\ respondToEditRequest db1 "n1" "g1" false "h1" = Ok (u2, db2)
    /\ updateUserEditPermission db2 "n1" "g1" true "h1" = Ok (u3, db3)
    /\ select_user db3 "n1" "g1" = Some u3
    /\ requestEditPermission 2000 db3 "n1" "g1" = Err AlreadyGranted
    /\ syncCooldown 2000 u3 (mkCountdown 0 false) = mkCountdown 29 true.
Proof.
  do 6 eexists.
  split; [vm_compute; reflexivity|].
  split; [vm_compute; reflexivity|].
  split; [vm_compute; reflexivity|].
  split; [vm_compute; reflexivity|].
  split; vm_compute; reflexivity.
Qed.

Lemma users_distinct_filter (keep : NoteUser -> bool)
      (users : list NoteUser) :
  users_distinct users -> users_distinct (filter keep users).
Proof.
  unfold users_distinct.
  induction users as [|u rest IH]; simpl; intros Hnd; [constructor|].
  apply NoDup_cons_iff in Hnd as [Hfresh Hrest].
  destruct (keep u); simpl; [|exact (IH Hrest)].
  apply NoDup_cons_iff. split; [|exact (IH Hrest)].
  intros Hin. apply Hfresh.
  apply in_map_iff in Hin as (v & Hv & Hin).
  apply filter_In in Hin as [Hin _].
  apply in_map_iff. exists v. split; assumption.
Qed.

(** X20.  The pushed changes keep the client's participant list free of
    duplicates: an INSERT adds the participant unless the list has one
    with that [user_id], a DELETE removes every entry with the
    [user_id], an UPDATE changes no [user_id]. *)
Theorem pushed_changes_keep_users_distinct
        (userId : string) (isHost : bool) (u : NoteUser) (h : Hook) :
  users_distinct (noteUsers h) ->
  users_distinct (noteUsers (onUserInsert u h))
  /\ In (user_id u) (map user_id (noteUsers (onUserInsert u h)))
  /\ users_distinct (noteUsers (onUserDelete u h))
  /\ ~ In (user_id u) (map user_id (noteUsers (onUserDelete u h)))
  /\ map user_id (noteUsers (onUserUpdate userId isHost u h))
     = map user_id (noteUsers h).
Proof.
  unfold users_distinct. intros Hnd.
  split; [|split; [|split; [|split]]].
  - unfold onUserInsert. simpl.
    destruct (existsb _ (noteUsers h)) eqn:E; [exact Hnd|].
    rewrite map_app. simpl. apply NoDup_app; [exact Hnd| |].
    + constructor; [intros []|constructor].
    + intros a Ha [<-|[]].
      apply in_map_iff in Ha as (v & Hid & Hv).
      assert (existsb (fun w => (user_id w =? user_id u)%string)
                      (noteUsers h) = true)
        by (apply existsb_exists; exists v; split;
            [exact Hv|now apply String.eqb_eq]).
      congruence.
  - unfold onUserInsert. simpl.
    destruct (existsb _ (noteUsers h)) eqn:E.
    + apply existsb_exists in E as (v & Hv & Hid).
      apply String.eqb_eq in Hid. rewrite <- Hid. now apply in_map.
    + rewrite map_app. apply in_or_app. right. now left.
  - unfold onUserDelete. simpl. now apply users_distinct_filter.
  - unfold onUserDelete. simpl. intros Hin.
    apply in_map_iff in Hin as (v & Hid & Hv).
    apply filter_In in Hv as [_ Hv]. apply negb_true_iff in Hv.
    apply String.eqb_neq in Hv. contradiction.
  - unfold onUserUpdate.
    assert (Hm : map user_id
                     (map (fun v => if (user_id v =? user_id u)%string
                                    then u else v) (noteUsers h))
                 = map user_id (noteUsers h)).
    { rewrite map_map. apply map_ext. intros v.
      destruct (String.eqb_spec (user_id v) (user_id u)); congruence. }
    destruct (user_id u =? userId)%string; simpl; exact Hm.
Qed.

(** The client of the demonstration guest learns of a newcomer twice. *)
Lemma pushed_changes_keep_users_distinct_witness :
  List.length
    (noteUsers
       (onUserInsert
          (newParticipant "r3" "n1" "g2" "ann" guest 7)
          (onUserInsert
             (newParticipant "r3" "n1" "g2" "ann" guest 7)
             (mkHook [Demo.theHost; Demo.theGuest] false none
                     (mkCountdown 0 false)))))
  = 3%nat.
Proof.
  destruct (pushed_changes_keep_users_distinct
              "g1" false (newParticipant "r3" "n1" "g2" "ann" guest 7)
              (onUserInsert
                 (newParticipant "r3" "n1" "g2" "ann" guest 7)
                 (mkHook [Demo.theHost; Demo.theGuest] false none
                         (mkCountdown 0 false)))) as [_ _].
  - unfold users_distinct. simpl.
    repeat constructor; simpl; intuition discriminate.
  - reflexivity.
Defined.

(** X21.  The host's answer reaches the guest.  When the record that
    [respondToEditRequest] returns is pushed to the target's client, an
    approval lets the guest edit, shows [granted] and stops the
    countdown at once; a denial shows [denied], keeps the guest from
    editing if the record did, and leaves the countdown running. *)
Theorem answer_reaches_guest
        (db db' : Db) (noteId targetUserId hostUserId : string)
        (approved : bool) (t' : NoteUser) (h : Hook) :
  respondToEditRequest db noteId targetUserId approved hostUserId
  = Ok (t', db') ->
  let h' := onUserUpdate targetUserId false t' h in
  permissionStatus h' = (if approved then granted else denied)
  /\ canEdit h' = can_edit t'
  /\ (approved = true ->
      canEdit h' = true /\ countdown h' = mkCountdown 0 false)
  /\ (approved = false -> countdown h' = countdown h).
Proof.
  intros H. destruct (respondToEditRequest_ok_inv _ _ _ _ _ _ _ H)
    as (t & Hsel & Hst & -> & _).
  destruct (select_user_key _ _ _ _ Hsel) as (_ & Hu & _).
  cbv zeta. unfold onUserUpdate.
  assert (Hid : (user_id (if approved then approve t else deny t)
                 =? targetUserId)%string = true)
    by (destruct approved; simpl; rewrite Hu; apply String.eqb_refl).
  rewrite Hid. simpl. destruct approved; simpl; repeat split;
    intros; try discriminate; reflexivity.
Qed.

(** The host approves the pending request of the demonstration guest. *)
Lemma answer_reaches_guest_witness :
  canEdit
    (onUserUpdate "g1" false (approve (set_requested 1000 Demo.theGuest))
                  (mkHook [Demo.theHost; set_requested 1000 Demo.theGuest]
                          false requested (mkCountdown 12 true)))
  = true.
Proof.
  destruct (answer_reaches_guest
              (set_note_users Demo.session
                 [Demo.theHost; set_requested 1000 Demo.theGuest])
              (set_note_users Demo.session
                 [Demo.theHost; approve (set_requested 1000 Demo.theGuest)])
              "n1" "g1" "h1" true
              (approve (set_requested 1000 Demo.theGuest))
              (mkHook [Demo.theHost; set_requested 1000 Demo.theGuest]
                      false requested (mkCountdown 12 true))
              eq_refl) as (_ & _ & Hok & _).
  exact (proj1 (Hok eq_refl)).
Defined.

End ClientView.

(** ** Presence *)

Section PresenceList.

Import Store Presence.
Local Open Scope Z_scope.

Lemma insertByTime_perm (u : PresenceUser) (l : list PresenceUser) :
  Permutation (insertByTime u l) (u :: l).
Proof.
  induction l as [|v l IH]; simpl; [apply Permutation_refl|].
  destruct (online_at v <=? online_at u); [|apply Permutation_refl].
  apply Permutation_trans with (l' := v :: u :: l);
    [now apply perm_skip|apply perm_swap].
Qed.

Lemma insertByTime_sorted (u : PresenceUser) (l : list PresenceUser) :
  Sorted (fun a b => online_at a <= online_at b) l ->
  Sorted (fun a b => online_at a <= online_at b) (insertByTime u l).
Proof.
  induction l as [|v l IH]; simpl; intros Hs.
  - repeat constructor.
  - destruct (Z.leb_spec (online_at v) (online_at u)) as [Hle|Hgt].
    + inversion Hs as [|x xs Hs' Hhd]; subst.
      constructor; [now apply IH|].
      destruct l as [|w l]; simpl.
      * constructor. exact Hle.
      * destruct (Z.leb_spec (online_at w) (online_at u));
          constructor; [|exact Hle].
        inversion Hhd; subst. assumption.
    + constructor; [exact Hs|]. constructor. lia.
Qed.

Lemma sortByTime_from (l acc : list PresenceUser) :
  Sorted (fun a b => online_at a <= online_at b) acc ->
  Sorted (fun a b => online_at a <= online_at b)
         (fold_left (fun acc u => insertByTime u acc) l acc)
  /\ Permutation (fold_left (fun acc u => insertByTime u acc) l acc)
                 (acc ++ l).
Proof.
  revert acc. induction l as [|u l IH]; intros acc Hs; simpl.
  - split; [exact Hs|]. rewrite app_nil_r. apply Permutation_refl.
  - destruct (IH (insertByTime u acc) (insertByTime_sorted u acc Hs))
      as [Hsorted Hperm].
    split; [exact Hsorted|].
    apply Permutation_trans with (l' := insertByTime u acc ++ l);
      [exact Hperm|].
    apply Permutation_trans with (l' := (u :: acc) ++ l).
    + apply Permutation_app_tail. apply insertByTime_perm.
    + simpl. apply Permutation_middle.
Qed.

(** X22.  [extractUsers] lists every presence that has an id, each as
    often as the channel state holds it and no other, in the order of
    their connection times. *)
Theorem extractUsers_sorted
        (presenceState : list (string * list PresenceUser)) :
  Sorted (fun a b => online_at a <= online_at b) (extractUsers presenceState)
  /\ Permutation (extractUsers presenceState)
                 (filter hasId (List.concat (map snd presenceState)))
  /\ (forall u : PresenceUser,
         In u (extractUsers presenceState)
         <-> (exists key us, In (key, us) presenceState /\ In u us)
             /\ pid u <> EmptyString).
Proof.
  unfold extractUsers, sortByTime, collect.
  destruct (sortByTime_from
              (filter hasId (List.concat (map snd presenceState))) []
              (Sorted_nil _)) as [Hs Hp].
  simpl in Hp. split; [exact Hs|]. split; [exact Hp|].
  intros u. split.
  - intros Hin. apply (Permutation_in _ Hp) in Hin.
    apply filter_In in Hin as [Hin Hid]. split.
    + apply in_concat in Hin as (us & Hus & Hu).
      apply in_map_iff in Hus as ([key us'] & Heq & Hk). simpl in Heq.
      subst us'. eauto.
    + unfold hasId in Hid. apply negb_true_iff in Hid.
      now apply String.eqb_neq.
  - intros [(key & us & Hk & Hu) Hid].
    apply (Permutation_in _ (Permutation_sym Hp)).
    apply filter_In. split.
    + apply in_concat. exists us. split; [|exact Hu].
      apply in_map_iff. exists (key, us). auto.
    + unfold hasId. apply negb_true_iff. now apply String.eqb_neq.
Qed.

End PresenceList.

(** ** The anonymous user id *)

Section AnonymousId.

Import UserId.
Local Open Scope string_scope.

(** X23.  In the browser [generateUserId] is get-or-create: the id it
    returns is the one stored afterwards, a later call returns the same
    id whatever new value is drawn and stores nothing new, and
    [getUserId] reads it; after [clearUserId] there is none. *)
Theorem generateUserId_is_stable
        (uuid1 uuid2 : string) (storage : option string) :
  uuid1 <> "" ->
  let '(id1, storage1) := generateUserId true uuid1 storage in
  generateUserId true uuid2 storage1 = (id1, storage1)
  /\ getUserId true storage1 = Some id1
  /\ id1 <> ""
  /\ getUserId true (clearUserId true storage1) = None.
Proof.
  intros Hu. apply String.eqb_neq in Hu.
  unfold generateUserId, getUserId, clearUserId. simpl.
  destruct storage as [existing|]; simpl.
  - destruct (String.eqb_spec existing "") as [He|He]; simpl.
    + rewrite Hu. simpl. repeat split. now apply String.eqb_neq.
    + apply String.eqb_neq in He. rewrite He. simpl.
      repeat split. now apply String.eqb_neq.
  - rewrite Hu. simpl. repeat split. now apply String.eqb_neq.
Qed.

(** A first visit draws "u-1"; the second visit is offered "u-2". *)
Lemma generateUserId_is_stable_witness :
  generateUserId true "u-2" (Some "u-1") = ("u-1", Some "u-1").
Proof.
  exact (proj1 (generateUserId_is_stable "u-1" "u-2" None
                  ltac:(discriminate))).
Defined.

End AnonymousId.

(** ** Witnesses of the invariants *)

Section InvariantWitnesses.

Import Store NoteService Vocabulary.
Local Open Scope string_scope.
Local Open Scope Z_scope.

Lemma demo_hosts_intact : hosts_intact Demo.session.
Proof.
  intros h [<-|[<-|[]]]; [split; reflexivity|discriminate].
Qed.

(** The guest of the demonstration session asks; the host's record is
    as before. *)
Lemma arbiter_keeps_hosts_intact_witness :
  hosts_intact
    (set_note_users Demo.session
       [Demo.theHost; set_requested 1000 Demo.theGuest]).
Proof.
  exact (proj1 (arbiter_keeps_hosts_intact Demo.session demo_hosts_intact)
               1000 "n1" "g1" (set_requested 1000 Demo.theGuest)
               (set_note_users Demo.session
                  [Demo.theHost; set_requested 1000 Demo.theGuest])
               eq_refl).
Defined.

Lemma demo_one_record_each : one_record_each Demo.session.
Proof.
  intros noteId userId. simpl.
  destruct (key_is noteId userId Demo.theHost) eqn:E1;
    destruct (key_is noteId userId Demo.theGuest) eqn:E2; simpl; try lia.
  apply key_is_iff in E1 as [_ E1]. apply key_is_iff in E2 as [_ E2].
  simpl in E1, E2. congruence.
Qed.

(** The guest of the demonstration session joins again. *)
Lemma joinNote_keeps_one_record_each_witness :
  one_record_each
    (set_note_users Demo.session
       [Demo.theHost; rejoin "gina" guest 9 Demo.theGuest]).
Proof.
  exact (joinNote_keeps_one_record_each
           "r9" 9 Demo.session
           (set_note_users Demo.session
              [Demo.theHost; rejoin "gina" guest 9 Demo.theGuest])
           "n1" "g1" "gina" guest (rejoin "gina" guest 9 Demo.theGuest)
           demo_one_record_each eq_refl).
Defined.

End InvariantWitnesses.

(** ** Asking again *)

Section AskingAgain.

Import Store NoteService Vocabulary.
Local Open Scope string_scope.
Local Open Scope Z_scope.

Lemma requestEditPermission_on_guest
      (now : Z) (db : Db) (noteId userId : string) (u : NoteUser) :
  noteId <> "" -> userId <> "" ->
  select_user db noteId userId = Some u ->
  role u = guest -> can_edit u = false ->
  requestEditPermission now db noteId userId
  = match cooldownCheck now u with
    | Some remaining => Err (Cooldown remaining)
    | None =>
        Ok (set_requested now u,
            set_note_users db
              (map (fun v => if key_is noteId userId v
                             then set_requested now u else v)
                   (note_users db)))
    end.
Proof.
  intros Hn Hu Hsel Hr Hce. unfold requestEditPermission.
  rewrite (falsy_false _ Hn), (falsy_false _ Hu), Hsel, Hr, Hce. simpl.
  destruct (cooldownCheck now u); [reflexivity|].
  unfold select_user in Hsel.
  now rewrite (update_user_single_found _ (set_requested now) db u Hsel).
Qed.

(** X24.  A denial does not restart the cooldown.  After a request made
    at [t0] was denied, however late, the guest is held back until 30
    seconds after [t0] and may ask again from then on; the new request
    is pending and dated anew. *)
Theorem denied_guest_asks_again
        (t0 t1 : Z) (db db1 db2 : Db) (noteId userId hostUserId : string)
        (u1 u2 : NoteUser) :
  requestEditPermission t0 db noteId userId = Ok (u1, db1) ->
  respondToEditRequest db1 noteId userId false hostUserId = Ok (u2, db2) ->
  permission_status u2 = denied
  /\ permission_requested_at u2 = Some t0
  /\ (t1 - t0 < 30 * 1000 ->
      exists remaining : Z,
        requestEditPermission t1 db2 noteId userId
        = Err (Cooldown remaining))
  /\ (30 * 1000 <= t1 - t0 ->
      exists (u3 : NoteUser) (db3 : Db),
        requestEditPermission t1 db2 noteId userId = Ok (u3, db3)
        /\ permission_status u3 = requested
        /\ permission_requested_at u3 = Some t1
        /\ can_edit u3 = false).
Proof.
  intros H1 H2.
  destruct (requestEditPermission_ok_inv _ _ _ _ _ _ H1)
    as (Hn & Hu & u0 & _ & Hr & Hce & -> & _ & Hsel1).
  destruct (respondToEditRequest_ok_inv _ _ _ _ _ _ _ H2)
    as (t & Hsel & _ & -> & [_ Hus]).
  rewrite Hsel1 in Hsel. injection Hsel as <-.
  assert (Hsel2 : select_user db2 noteId userId
                  = Some (deny (set_requested t0 u0))).
  { destruct (select_user_key _ _ _ _ Hsel1) as (Hk1 & Hk2 & _).
    pose proof (select_user_replaced db1 noteId userId
                  (set_requested t0 u0) (deny (set_requested t0 u0)) Hsel1)
      as Hrep.
    unfold select_user in *. simpl in Hrep. rewrite Hus. apply Hrep.
    apply key_is_iff. simpl in *. auto. }
  split; [reflexivity|]. split; [reflexivity|].
  pose proof (requestEditPermission_on_guest
                t1 db2 noteId userId (deny (set_requested t0 u0))
                Hn Hu Hsel2 Hr Hce) as Hreq.
  split.
  - intros Hlt.
    destruct (cooldownCheck_cooling t1 (deny (set_requested t0 u0)))
      as (last & _ & Hc).
    + split; [now right|]. exists t0. split; [reflexivity|exact Hlt].
    + rewrite Hc in Hreq. eauto.
  - intros Hge.
    rewrite cooldownCheck_not_cooling in Hreq.
    + do 2 eexists. split; [exact Hreq|]. repeat split. exact Hce.
    + intros (_ & last & Hlast & Hlt). simpl in Hlast.
      injection Hlast as <-. lia.
Qed.

(** The demonstration guest asks at 1 s, is denied, and asks at 46 s. *)
Lemma denied_guest_asks_again_witness :
  exists (u3 : NoteUser) (db3 : Db),
    requestEditPermission 46000
      (set_note_users Demo.session
         [Demo.theHost; deny (set_requested 1000 Demo.theGuest)])
      "n1" "g1" = Ok (u3, db3)
    /\ permission_requested_at u3 = Some 46000.
Proof.
  destruct (denied_guest_asks_again
              1000 46000 Demo.session
              (set_note_users Demo.session
                 [Demo.theHost; set_requested 1000 Demo.theGuest])
              (set_note_users Demo.session
                 [Demo.theHost; deny (set_requested 1000 Demo.theGuest)])
              "n1" "g1" "h1"
              (set_requested 1000 Demo.theGuest)
              (deny (set_requested 1000 Demo.theGuest))
              eq_refl eq_refl) as (_ & _ & _ & Hok).
  destruct (Hok ltac:(lia)) as (u3 & db3 & E & _ & Ht & _).
  exists u3, db3. split; [exact E|exact Ht].
Defined.

(** X25.  The expiry pass is idempotent: run again at the same instant
    on its own result, it changes nothing more. *)
Theorem cleanupExpiredRequests_idempotent
        (now : Z) (db db' : Db) (noteId : string) (logged : list PgError) :
  cleanupExpiredRequests None now db noteId = Ok (logged, db') ->
  cleanupExpiredRequests None now db' noteId = Ok ([], db').
Proof.
  unfold cleanupExpiredRequests.
  destruct (falsy noteId); [intros H; now injection H as _ <-|].
  intros H. injection H as _ <-. f_equal. f_equal.
  unfold set_note_users. simpl. f_equal.
  unfold update_where. rewrite map_map. apply map_ext. intros u.
  destruct (expired noteId _ u) eqn:E; [|now rewrite E].
  unfold expired, reset_request. simpl. now rewrite andb_false_r.
Qed.

(** The pass on a store with a stale denial, twice. *)
Lemma cleanupExpiredRequests_idempotent_witness :
  cleanupExpiredRequests None (3 * 24 * 60 * 60 * 1000) Demo.session "n1"
  = Ok ([], Demo.session).
Proof.
  exact (cleanupExpiredRequests_idempotent
           (3 * 24 * 60 * 60 * 1000)
           (set_note_users Demo.session
              [Demo.theHost;
               deny (set_requested (24 * 60 * 60 * 1000) Demo.theGuest)])
           Demo.session "n1" [] eq_refl).
Defined.

End AskingAgain.
